(** * Colour: ALEXA Wide Gamut RGB and Blackmagic colourspace datasets

    A shallow embedding of

    - [colour/dataset/colourspaces/rgb/alexa_wide_gamut_rgb.py]
      (the Log C coefficient tables, the transfer function pair, the
      colourspace record),
    - [colour/models/rgb/datasets/blackmagic.py]
      (the six Blackmagic colourspaces), and
    - [setup.py] (the long description read from the readme),

    together with the properties their specification states and further
    properties read off the code.

    Numbers.  A Python float literal is read as the decimal rational it
    denotes ([Q]); the tables and matrices are therefore executable.  The
    transfer functions call [math.log10] and [math.pow]: they are embedded
    over the real numbers ([R]), the coefficients being injected with
    [Q2R].  The exceptions of the two library functions are modelled: the
    domain error of [math.log10] and the range error of [math.pow].
    Rounding, infinities and NaN of binary64 are outside this model: a
    value is a real number, and the products, sums and quotients of
    floats, which overflow to infinity without an exception, are exact.

    Failure.  Python exceptions are values of [exn]; a computation that
    may raise has type [result A]. *)

From Stdlib Require Import QArith Qabs Qreals Reals Lqa Lra Lia.
From stdpp Require Import gmap strings list fin_maps.

Set Default Proof Using "Type".

(** ** Python runtime *)

Module Py.

(** The builtin exception classes that matter here. *)
Inductive exn : Set :=
| KeyError
| IndexError
| AttributeError
| TypeError
| ValueError
| ZeroDivisionError
| OverflowError.


Inductive result (A : Type) : Type :=
| Ok (a : A)
| Raise (e : exn).
Arguments Ok {A} a.
Arguments Raise {A} e.

Definition bind {A B} (r : result A) (k : A -> result B) : result B :=
  match r with
  | Ok a => k a
  | Raise e => Raise e
  end.

Definition returns {A} (r : result A) : Prop := exists a, r = Ok a.

(** A dictionary display [{k1: v1, ..., kn: vn}] is evaluated left to
    right, each item stored in turn: a key written twice keeps the
    value written last. *)
Definition dict_literal {K V} `{Countable K} (items : list (K * V)) : gmap K V :=
  foldl (fun d kv => <[kv.1 := kv.2]> d) ∅ items.

(** [obj.get(k)] where [obj] is the result of a previous [.get]:
    [None] has no attribute [get]. *)
Definition get_attr_get {K V} `{Countable K}
    (obj : option (gmap K V)) (k : K) : result (option V) :=
  match obj with
  | None => Raise AttributeError
  | Some d => Ok (d !! k)
  end.

(** Unpacking [x1, ..., xn = obj]: [None] is not iterable. *)
Definition unpack {T} (obj : option T) : result T :=
  match obj with
  | None => Raise TypeError
  | Some t => Ok t
  end.

Definition Rgtb (x y : R) : bool := if Rgt_dec x y then true else false.

Definition log10 (x : R) : R := (ln x / ln 10)%R.

(** [math.log10(x)]: a math domain error outside [x > 0]. *)
Definition math_log10 (x : R) : result R :=
  if Rgt_dec x 0%R then Ok (log10 x) else Raise ValueError.

(** The largest binary64 number, [(2 - 2^-52) * 2^1023]. *)
Definition DBL_MAX_Z : Z := 2 ^ 1024 - 2 ^ 971.
Definition DBL_MAX : R := IZR DBL_MAX_Z.

(** [math.pow(10, y)].  The base is positive, so there is no domain
    error; a result beyond the binary64 range is an [OverflowError]
    ("math range error").  The real power is compared with [DBL_MAX]
    exactly: the last-place error of the library function and of the
    rounding is not modelled. *)
Definition math_pow10 (y : R) : result R :=
  if Rgt_dec (Rpower 10%R y) DBL_MAX then Raise OverflowError
  else Ok (Rpower 10%R y).

(** [x / y] on floats. *)
Definition truediv (x y : R) : result R :=
  if Req_dec_T y 0%R then Raise ZeroDivisionError else Ok (x / y)%R.

End Py.

Import Py.

(** [result] is a monad; stdpp's [x ← r; k] notation sequences it. *)
#[global] Instance result_ret : MRet result := fun A a => Ok a.
#[global] Instance result_bind : MBind result := fun A B k r => Py.bind r k.

(** ** alexa_wide_gamut_rgb.py *)

(** The coefficient tuple [(cut, a, b, c, d, e, f, ecutf)]. *)
Definition coefficients : Type := (Q * Q * Q * Q * Q * Q * Q * Q)%type.

Definition ALEXA_LOG_C_CURVE_BCL_DATA : gmap string (gmap Z (Q * Q)) :=
  (dict_literal [
    ("SUP 3.x", dict_literal [
        (160%Z, (0.0928, 0.8128));
        (200%Z, (0.0928, 0.8341));
        (250%Z, (0.0928, 0.8549));
        (320%Z, (0.0928, 0.8773));
        (400%Z, (0.0928, 0.8968));
        (500%Z, (0.0928, 0.9158));
        (640%Z, (0.0928, 0.9362));
        (800%Z, (0.0928, 0.9539));
        (1000%Z, (0.0928, 0.9711));
        (1280%Z, (0.0928, 0.9895));
        (1600%Z, (0.0928, 1.0000));
        (2000%Z, (0.0928, 1.0000));
        (2560%Z, (0.0928, 1.0000));
        (3200%Z, (0.0928, 1.0000)) ]);
    ("SUP 2.x", dict_literal [
        (160%Z, (0.1083, 0.8110));
        (200%Z, (0.1115, 0.8320));
        (250%Z, (0.1146, 0.8524));
        (320%Z, (0.1181, 0.8743));
        (400%Z, (0.1213, 0.8935));
        (500%Z, (0.1245, 0.9121));
        (640%Z, (0.1280, 0.9320));
        (800%Z, (0.1311, 0.9494));
        (1000%Z, (0.1343, 0.9662));
        (1280%Z, (0.1378, 0.9841));
        (1600%Z, (0.1409, 0.9997)) ]) ])%Q.

(** The items of the display at lines 73-160, in source order.  The key
    ["SUP 3.x"] is written at line 73 and again at line 108. *)
Definition ALEXA_LOG_C_CURVE_CONVERSION_DATA_items
  : list (string * gmap string (gmap Z coefficients)) :=
  ([
    ("SUP 3.x", dict_literal [
        ("Normalised Sensor Signal", dict_literal [
            (160%Z, (0.004680, 40.0, (-0.076072), 0.269036, 0.381991, 42.062665, (-0.071569), 0.125266));
            (200%Z, (0.004597, 50.0, (-0.118740), 0.266007, 0.382478, 51.986387, (-0.110339), 0.128643));
            (250%Z, (0.004518, 62.5, (-0.171260), 0.262978, 0.382966, 64.243053, (-0.158224), 0.132021));
            (320%Z, (0.004436, 80.0, (-0.243808), 0.259627, 0.383508, 81.183335, (-0.224409), 0.135761));
            (400%Z, (0.004369, 100.0, (-0.325820), 0.256598, 0.383999, 100.295280, (-0.299079), 0.139142));
            (500%Z, (0.004309, 125.0, (-0.427461), 0.253569, 0.384493, 123.889239, (-0.391261), 0.142526));
            (640%Z, (0.004249, 160.0, (-0.568709), 0.250219, 0.385040, 156.482680, (-0.518605), 0.146271));
            (800%Z, (0.004201, 200.0, (-0.729169), 0.247190, 0.385537, 193.235573, (-0.662201), 0.149658));
            (1000%Z, (0.004160, 250.0, (-0.928805), 0.244161, 0.386036, 238.584745, (-0.839385), 0.153047));
            (1280%Z, (0.004120, 320.0, (-1.207168), 0.240810, 0.386590, 301.197380, (-1.084020), 0.156799));
            (1600%Z, (0.004088, 400.0, (-1.524256), 0.237781, 0.387093, 371.761171, (-1.359723), 0.160192)) ]);
        ("Linear Scene Exposure Factor", dict_literal [
            (160%Z, (0.005561, 5.555556, 0.080216, 0.269036, 0.381991, 5.842037, 0.092778, 0.125266));
            (200%Z, (0.006208, 5.555556, 0.076621, 0.266007, 0.382478, 5.776265, 0.092782, 0.128643));
            (250%Z, (0.006871, 5.555556, 0.072941, 0.262978, 0.382966, 5.710494, 0.092786, 0.132021));
            (320%Z, (0.007622, 5.555556, 0.068768, 0.259627, 0.383508, 5.637732, 0.092791, 0.135761));
            (400%Z, (0.008318, 5.555556, 0.064901, 0.256598, 0.383999, 5.571960, 0.092795, 0.139142));
            (500%Z, (0.009031, 5.555556, 0.060939, 0.253569, 0.384493, 5.506188, 0.092800, 0.142526));
            (640%Z, (0.009840, 5.555556, 0.056443, 0.250219, 0.385040, 5.433426, 0.092805, 0.146271));
            (800%Z, (0.010591, 5.555556, 0.052272, 0.247190, 0.385537, 5.367655, 0.092809, 0.149658));
            (1000%Z, (0.011361, 5.555556, 0.047996, 0.244161, 0.386036, 5.301883, 0.092814, 0.153047));
            (1280%Z, (0.012235, 5.555556, 0.043137, 0.240810, 0.386590, 5.229121, 0.092819, 0.156799));
            (1600%Z, (0.013047, 5.555556, 0.038625, 0.237781, 0.387093, 5.163350, 0.092824, 0.16019)) ]) ]);
    ("SUP 3.x", dict_literal [
        ("Normalised Sensor Signal", dict_literal [
            (160%Z, (0.003907, 36.439829, (-0.053366), 0.269035, 0.391007, 45.593473, (-0.069772), 0.10836));
            (200%Z, (0.003907, 45.549786, (-0.088959), 0.266007, 0.391007, 55.709581, (-0.106114), 0.11154));
            (250%Z, (0.003907, 56.937232, (-0.133449), 0.262978, 0.391007, 67.887153, (-0.150510), 0.11472));
            (320%Z, (0.003907, 72.879657, (-0.195737), 0.259627, 0.391007, 84.167616, (-0.210597), 0.11824));
            (400%Z, (0.003907, 91.099572, (-0.266922), 0.256598, 0.391007, 101.811426, (-0.276349), 0.12142));
            (500%Z, (0.003907, 113.874465, (-0.355903), 0.253569, 0.391007, 122.608379, (-0.354421), 0.12461));
            (640%Z, (0.003907, 145.759315, (-0.480477), 0.250218, 0.391007, 149.703304, (-0.456760), 0.12813));
            (800%Z, (0.003907, 182.199144, (-0.622848), 0.247189, 0.391007, 178.216873, (-0.564981), 0.13131));
            (1000%Z, (0.003907, 227.748930, (-0.800811), 0.244161, 0.391007, 210.785040, (-0.689043), 0.13449));
            (1280%Z, (0.003907, 291.518630, (-1.049959), 0.240810, 0.391007, 251.689459, (-0.845336), 0.13801));
            (1600%Z, (0.003907, 364.398287, (-1.334700), 0.237781, 0.391007, 293.073575, (-1.003841), 0.14119)) ]);
        ("Linear Scene Exposure Factor", dict_literal [
            (160%Z, (0.000000, 5.061087, 0.089004, 0.269035, 0.391007, 6.332427, 0.108361, 0.108361));
            (200%Z, (0.000000, 5.061087, 0.089004, 0.266007, 0.391007, 6.189953, 0.111543, 0.111543));
            (250%Z, (0.000000, 5.061087, 0.089004, 0.262978, 0.391007, 6.034414, 0.114725, 0.114725));
            (320%Z, (0.000000, 5.061087, 0.089004, 0.259627, 0.391007, 5.844973, 0.118246, 0.118246));
            (400%Z, (0.000000, 5.061087, 0.089004, 0.256598, 0.391007, 5.656190, 0.121428, 0.121428));
            (500%Z, (0.000000, 5.061087, 0.089004, 0.253569, 0.391007, 5.449261, 0.124610, 0.124610));
            (640%Z, (0.000000, 5.061087, 0.089004, 0.250218, 0.391007, 5.198031, 0.128130, 0.128130));
            (800%Z, (0.000000, 5.061087, 0.089004, 0.247189, 0.391007, 4.950469, 0.131313, 0.131313));
            (1000%Z, (0.000000, 5.061087, 0.089004, 0.244161, 0.391007, 4.684112, 0.134495, 0.134495));
            (1280%Z, (0.000000, 5.061087, 0.089004, 0.240810, 0.391007, 4.369609, 0.138015, 0.138015));
            (1600%Z, (0.000000, 5.061087, 0.089004, 0.237781, 0.391007, 4.070466, 0.141197, 0.14119)) ]) ])
  ])%Q.

Definition ALEXA_LOG_C_CURVE_CONVERSION_DATA
  : gmap string (gmap string (gmap Z coefficients)) :=
  dict_literal ALEXA_LOG_C_CURVE_CONVERSION_DATA_items.

(** [ALEXA_LOG_C_CURVE_CONVERSION_DATA.get(firmware).get(method).get(EI)]
    and the unpacking [cut, a, b, c, d, e, f, ecutf = ...] of what it
    returns (lines 192 and 214). *)
Definition lookup_coefficients (firmware method : string) (EI : Z)
  : result coefficients :=
  by_method ← get_attr_get (Some ALEXA_LOG_C_CURVE_CONVERSION_DATA) firmware;
  by_EI ← get_attr_get by_method method;
  entry ← get_attr_get by_EI EI;
  unpack entry.

(** [c * math.log10(a * value + b) + d if value > cut else ecutf] *)
Definition __alexa_wide_gamut_rgb_transfer_function
    (value : R) (firmware method : string) (EI : Z) : result R :=
  '(cut, a, b, c, d, e, f, ecutf) ← lookup_coefficients firmware method EI;
  if Rgtb value (Q2R cut)
  then l ← math_log10 (Q2R a * value + Q2R b)%R;
       mret (Q2R c * l + Q2R d)%R
  else mret (Q2R ecutf).

(** [(math.pow(10, (value - d) / c) - b) / a if value > ecutf
     else (value - f) / e] *)
Definition __alexa_wide_gamut_rgb_inverse_transfer_function
    (value : R) (firmware method : string) (EI : Z) : result R :=
  '(cut, a, b, c, d, e, f, ecutf) ← lookup_coefficients firmware method EI;
  if Rgtb value (Q2R ecutf)
  then y ← truediv (value - Q2R d)%R (Q2R c);
       p ← math_pow10 y;
       truediv (p - Q2R b)%R (Q2R a)
  else truediv (value - Q2R f)%R (Q2R e).

(** The default arguments of both functions. *)
Definition default_firmware : string := "SUP 3.x".
Definition default_method : string := "Linear Scene Exposure Factor".
Definition default_EI : Z := 800.

Definition ALEXA_WIDE_GAMUT_RGB_TRANSFER_FUNCTION :=
  __alexa_wide_gamut_rgb_transfer_function.

Definition ALEXA_WIDE_GAMUT_RGB_INVERSE_TRANSFER_FUNCTION :=
  __alexa_wide_gamut_rgb_inverse_transfer_function.

(** [decode(encode(value))], both with the same configuration. *)
Definition round_trip (value : R) (firmware method : string) (EI : Z) : result R :=
  v ← ALEXA_WIDE_GAMUT_RGB_TRANSFER_FUNCTION value firmware method EI;
  ALEXA_WIDE_GAMUT_RGB_INVERSE_TRANSFER_FUNCTION v firmware method EI.

(** The configurations the table answers, with their tuples. *)
Definition table_entries
    (data : gmap string (gmap string (gmap Z coefficients)))
  : list (string * string * Z * coefficients) :=
  '(firmware, by_method) ← map_to_list data;
  '(method, by_EI) ← map_to_list by_method;
  '(EI, t) ← map_to_list by_EI;
  [(firmware, method, EI, t)].

Definition Qltb (x y : Q) : bool := negb (Qle_bool y x).

(** What the arithmetic of the two functions needs of a tuple: the
    argument of the logarithm is positive above [cut] ([a > 0] and
    [a * cut + b > 0]), and no divisor is zero. *)
Definition well_formed (t : coefficients) : bool :=
  let '(cut, a, b, c, d, e, f, ecutf) := t in
  Qltb 0 a && Qltb 0 (a * cut + b) && Qltb 0 c && Qltb 0 e.

(** The black and clipping levels of [ALEXA_LOG_C_CURVE_BCL_DATA] for a
    firmware and an exposure index. *)
Definition BCL (firmware : string) (EI : Z) : option (Q * Q) :=
  by_EI ← ALEXA_LOG_C_CURVE_BCL_DATA !! firmware; by_EI !! EI.

Definition levels_ordered (bcl : Q * Q) : bool :=
  let '(black, clipping) := bcl in
  Qltb 0 black && Qltb black clipping && Qle_bool clipping 1.

(** A sufficient check for the logarithmic segment to be inverted exactly
    from [x0] on: [x0] lies above [cut], the argument of the logarithm is
    at least [1/10] there, and [ecutf] lies below [d - c], the value of
    the curve where that argument is [1/10]. *)
Definition invertible_from (x0 : Q) (t : coefficients) : bool :=
  let '(cut, a, b, c, d, e, f, ecutf) := t in
  Qltb cut x0 && Qle_bool 0.1 (a * x0 + b) && Qltb (ecutf + c) d.

(** The argument of the logarithm at [x1] is within the binary64
    range. *)
Definition in_range_upto (x1 : Q) (t : coefficients) : bool :=
  let '(cut, a, b, c, d, e, f, ecutf) := t in
  Qle_bool (a * x1 + b) (inject_Z DBL_MAX_Z).

(** The curve value [d - c], where the argument of the logarithm is
    [1/10], separates the two crossovers: the argument at [cut] is below
    [1/10], and [ecutf] is below [d - c]. *)
Definition decade_separates (t : coefficients) : bool :=
  let '(cut, a, b, c, d, e, f, ecutf) := t in
  Qltb (a * cut + b) 0.1 && Qltb (ecutf + c) d.

(** The configurations of [table_entries], without the tuples. *)
Definition supported_configurations : list (string * string * Z) :=
  (table_entries ALEXA_LOG_C_CURVE_CONVERSION_DATA).*1.

(** ** Chromaticities and 3x3 matrices *)

(** A chromaticity pair [(x, y)]. *)
Definition xy : Type := (Q * Q)%type.

(** A 3x2 array of primaries, one row per primary: red, green, blue. *)
Definition primaries : Type := (xy * xy * xy)%type.

Definition vec3 : Type := (Q * Q * Q)%type.

(** A 3x3 array, row by row. *)
Definition mat33 : Type := (vec3 * vec3 * vec3)%type.

Definition red_primary (P : primaries) : xy := let '(r, _, _) := P in r.

Definition identity : mat33 := ((1, 0, 0), (0, 1, 0), (0, 0, 1))%Q.

(** Rationals are kept in lowest terms ([Qred x == x]), so that chains of
    products stay small. *)
Definition vec_red (v : vec3) : vec3 :=
  let '(x, y, z) := v in (Qred x, Qred y, Qred z).

Definition mat_red (M : mat33) : mat33 :=
  let '(r0, r1, r2) := M in (vec_red r0, vec_red r1, vec_red r2).

Definition diagflat (s : vec3) : mat33 :=
  let '(s0, s1, s2) := s in ((s0, 0, 0), (0, s1, 0), (0, 0, s2))%Q.

Definition mat_vec (M : mat33) (v : vec3) : vec3 :=
  let '((a, b, c), (d, e, f), (g, h, i)) := M in
  let '(x, y, z) := v in
  vec_red
    (a * x + b * y + c * z, d * x + e * y + f * z, g * x + h * y + i * z)%Q.

Definition mat_mul (M N : mat33) : mat33 :=
  let '((a, b, c), (d, e, f), (g, h, i)) := M in
  let '((a', b', c'), (d', e', f'), (g', h', i')) := N in
  mat_red
  ((a * a' + b * d' + c * g', a * b' + b * e' + c * h', a * c' + b * f' + c * i'),
   (d * a' + e * d' + f * g', d * b' + e * e' + f * h', d * c' + e * f' + f * i'),
   (g * a' + h * d' + i * g', g * b' + h * e' + i * h', g * c' + h * f' + i * i'))%Q.

Definition det (M : mat33) : Q :=
  let '((a, b, c), (d, e, f), (g, h, i)) := M in
  Qred (a * (e * i - f * h) - b * (d * i - f * g) + c * (d * h - e * g))%Q.

(** [numpy.linalg.inv(M)] and [M.getI()] on a square matrix, as the exact
    inverse (adjugate over determinant).  numpy raises [LinAlgError] on a
    singular matrix: [None]. *)
Definition np_linalg_inv (M : mat33) : option mat33 :=
  let '((a, b, c), (d, e, f), (g, h, i)) := M in
  let D := det M in
  if Qeq_bool D 0 then None
  else Some (mat_red
            (((e * i - f * h) / D, (c * h - b * i) / D, (b * f - c * e) / D),
             ((f * g - d * i) / D, (a * i - c * g) / D, (c * d - a * f) / D),
             ((d * h - e * g) / D, (b * g - a * h) / D, (a * e - b * d) / D)))%Q.

Definition vec_all2 (p : Q -> Q -> bool) (u v : vec3) : bool :=
  let '(a, b, c) := u in
  let '(a', b', c') := v in
  p a a' && p b b' && p c c'.

Definition mat_all2 (p : Q -> Q -> bool) (M N : mat33) : bool :=
  let '(r0, r1, r2) := M in
  let '(r0', r1', r2') := N in
  vec_all2 p r0 r0' && vec_all2 p r1 r1' && vec_all2 p r2 r2'.

Definition vec_eqb : vec3 -> vec3 -> bool := vec_all2 Qeq_bool.

(** Entrywise equality of rationals. *)
Definition mat_eqb : mat33 -> mat33 -> bool := mat_all2 Qeq_bool.

(** Entrywise [|x - y| <= tol]. *)
Definition within (tol : Q) (x y : Q) : bool := Qle_bool (Qabs (x - y)) tol.

Definition mat_within (tol : Q) : mat33 -> mat33 -> bool := mat_all2 (within tol).

(** [x] approximates the reference [ref] to [n] significant digits: the
    relative error is at most [5 * 10^-n]. *)
Definition significant (n : nat) (x ref : Q) : bool :=
  Qle_bool (Qabs (x - ref) * inject_Z (10 ^ Z.of_nat n)) (5 * Qabs ref).

Definition mat_significant (n : nat) : mat33 -> mat33 -> bool :=
  mat_all2 (significant n).

(** Modelled from the spec: [xy_to_XYZ] and [normalised_primary_matrix]
    are imported from [colour.models.rgb], which is not among the
    sources.  The spec: "solve for a diagonal scaling of the primary
    chromaticities' XYZ projections such that the whitepoint maps to unit
    luminance".  The columns of [M] are the primaries [(x, y, 1 - x - y)];
    the whitepoint is taken at luminance [Y = 1]; the scaling is
    [inv(M) . W].  [None] where the derivation is undefined (a whitepoint
    with [y = 0], singular primaries). *)
Definition xy_to_XYZ (w : xy) : option vec3 :=
  let '(x, y) := w in
  if Qeq_bool y 0 then None
  else Some (vec_red (x / y, 1, (1 - x - y) / y))%Q.

Definition normalised_primary_matrix (P : primaries) (W : xy) : option mat33 :=
  let '((xr, yr), (xg, yg), (xb, yb)) := P in
  let M := ((xr, xg, xb),
            (yr, yg, yb),
            (1 - xr - yr, 1 - xg - yg, 1 - xb - yb))%Q in
  Wxyz ← xy_to_XYZ W;
  Mi ← np_linalg_inv M;
  Some (mat_mul M (diagflat (mat_vec Mi Wxyz))).

(** ** The colourspace records *)

(** [colour.computation.colourspaces.rgb.colourspace.Colourspace], by the
    positional arguments of its constructor call at line 223. *)
Record Colourspace : Type := {
  name : string;
  cs_primaries : primaries;
  whitepoint : xy;
  to_XYZ : mat33;
  from_XYZ : mat33;
  transfer_function : R -> string -> string -> Z -> result R;
  inverse_transfer_function : R -> string -> string -> Z -> result R
}.

(** The encoding and decoding functions [blackmagic.py] imports from
    [colour.models.rgb]; their bodies are not among the sources, a
    colourspace records which one it is bound to. *)
Inductive cctf : Set :=
| log_encoding_BMDFilm | log_decoding_BMDFilm
| log_encoding_BMD4KFilm | log_decoding_BMD4KFilm
| log_encoding_BMD46KFilm | log_decoding_BMD46KFilm
| log_encoding_BMDPocket4KFilmV4 | log_decoding_BMDPocket4KFilmV4
| log_encoding_BMDPocket6KFilmV4 | log_decoding_BMDPocket6KFilmV4.

(** [colour.models.rgb.RGB_Colourspace], by the positional arguments of
    its constructor calls in [blackmagic.py]. *)
Record RGB_Colourspace : Type := {
  rgb_name : string;
  rgb_primaries : primaries;
  rgb_whitepoint : xy;
  whitepoint_name : string;
  RGB_to_XYZ_matrix : mat33;
  XYZ_to_RGB_matrix : mat33;
  cctf_encoding : cctf;
  cctf_decoding : cctf
}.

Section Datasets.

(** The illuminant tables are not among the sources.  Each file reads one
    entry: D65 under the "CIE 1931 2 Degree Standard Observer". *)
Variable ILLUMINANTS_D65 : xy.
Variable CCS_ILLUMINANTS_D65 : xy.

(** *** alexa_wide_gamut_rgb.py, lines 162-229 *)

Definition ALEXA_WIDE_GAMUT_RGB_PRIMARIES : primaries :=
  ((0.6840, 0.3130),
   (0.2210, 0.8480),
   (0.0861, -0.1020))%Q.

Definition ALEXA_WIDE_GAMUT_RGB_WHITEPOINT : xy := ILLUMINANTS_D65.

Definition ALEXA_WIDE_GAMUT_RGB_TO_XYZ_MATRIX : mat33 :=
  ((0.638008, 0.214704, 0.097744),
   (0.291954, 0.823841, -0.115795),
   (0.002798, -0.067034, 1.153294))%Q.

Definition XYZ_TO_ALEXA_WIDE_GAMUT_RGB_MATRIX : option mat33 :=
  np_linalg_inv ALEXA_WIDE_GAMUT_RGB_TO_XYZ_MATRIX.

Definition ALEXA_WIDE_GAMUT_RGB_COLOURSPACE : option Colourspace :=
  from_xyz ← XYZ_TO_ALEXA_WIDE_GAMUT_RGB_MATRIX;
  Some {| name := "ALEXA Wide Gamut RGB";
          cs_primaries := ALEXA_WIDE_GAMUT_RGB_PRIMARIES;
          whitepoint := ALEXA_WIDE_GAMUT_RGB_WHITEPOINT;
          to_XYZ := ALEXA_WIDE_GAMUT_RGB_TO_XYZ_MATRIX;
          from_XYZ := from_xyz;
          transfer_function := ALEXA_WIDE_GAMUT_RGB_TRANSFER_FUNCTION;
          inverse_transfer_function :=
            ALEXA_WIDE_GAMUT_RGB_INVERSE_TRANSFER_FUNCTION |}.

(** *** blackmagic.py *)

(** The pattern every colourspace of the file follows: the matrix from
    [normalised_primary_matrix], its inverse from [np.linalg.inv], then
    the [RGB_Colourspace] constructor. *)
Definition BMD_FILM_V1_PRIMARIES : primaries :=
  ((0.9173, 0.2502),
   (0.2833, 1.7072),
   (0.0856, -0.0708))%Q.
Definition BMD_FILM_V1_WHITEPOINT_NAME : string := "BMD White".
Definition BMD_FILM_V1_WHITEPOINT : xy := (0.3135, 0.3305)%Q.
Definition BMD_FILM_V1_TO_XYZ_MATRIX : option mat33 :=
  normalised_primary_matrix BMD_FILM_V1_PRIMARIES BMD_FILM_V1_WHITEPOINT.
Definition XYZ_TO_BMD_FILM_V1_MATRIX : option mat33 :=
  BMD_FILM_V1_TO_XYZ_MATRIX ≫= np_linalg_inv.
Definition RGB_COLOURSPACE_BMD_FILM_V1 : option RGB_Colourspace :=
  M ← BMD_FILM_V1_TO_XYZ_MATRIX;
  M_inv ← XYZ_TO_BMD_FILM_V1_MATRIX;
  Some {| rgb_name := "BMD Film V1";
          rgb_primaries := BMD_FILM_V1_PRIMARIES;
          rgb_whitepoint := BMD_FILM_V1_WHITEPOINT;
          whitepoint_name := BMD_FILM_V1_WHITEPOINT_NAME;
          RGB_to_XYZ_matrix := M;
          XYZ_to_RGB_matrix := M_inv;
          cctf_encoding := log_encoding_BMDFilm;
          cctf_decoding := log_decoding_BMDFilm |}.

Definition BMD_4K_FILM_V1_PRIMARIES : primaries :=
  ((0.7422, 0.2859),
   (0.4140, 1.3035),
   (0.0342, -0.0833))%Q.
Definition BMD_4K_FILM_V1_WHITEPOINT_NAME : string := "BMD White".
Definition BMD_4K_FILM_V1_WHITEPOINT : xy := (0.3135, 0.3305)%Q.
Definition BMD_4K_FILM_V1_TO_XYZ_MATRIX : option mat33 :=
  normalised_primary_matrix BMD_4K_FILM_V1_PRIMARIES BMD_4K_FILM_V1_WHITEPOINT.
Definition XYZ_TO_BMD_4K_FILM_V1_MATRIX : option mat33 :=
  BMD_4K_FILM_V1_TO_XYZ_MATRIX ≫= np_linalg_inv.
Definition RGB_COLOURSPACE_BMD_4K_FILM_V1 : option RGB_Colourspace :=
  M ← BMD_4K_FILM_V1_TO_XYZ_MATRIX;
  M_inv ← XYZ_TO_BMD_4K_FILM_V1_MATRIX;
  Some {| rgb_name := "BMD 4K Film V1";
          rgb_primaries := BMD_4K_FILM_V1_PRIMARIES;
          rgb_whitepoint := BMD_4K_FILM_V1_WHITEPOINT;
          whitepoint_name := BMD_4K_FILM_V1_WHITEPOINT_NAME;
          RGB_to_XYZ_matrix := M;
          XYZ_to_RGB_matrix := M_inv;
          cctf_encoding := log_encoding_BMD4KFilm;
          cctf_decoding := log_decoding_BMD4KFilm |}.

Definition BMD_4K_FILM_V3_PRIMARIES : primaries :=
  ((1.0625, 0.3948),
   (0.3689, 0.7775),
   (0.0956, -0.0332))%Q.
Definition BMD_4K_FILM_V3_WHITEPOINT_NAME : string := "BMD White".
Definition BMD_4K_FILM_V3_WHITEPOINT : xy := (0.3135, 0.3305)%Q.
Definition BMD_4K_FILM_V3_TO_XYZ_MATRIX : option mat33 :=
  normalised_primary_matrix BMD_4K_FILM_V3_PRIMARIES BMD_4K_FILM_V3_WHITEPOINT.
Definition XYZ_TO_BMD_4K_FILM_V3_MATRIX : option mat33 :=
  BMD_4K_FILM_V3_TO_XYZ_MATRIX ≫= np_linalg_inv.
Definition RGB_COLOURSPACE_BMD_4K_FILM_V3 : option RGB_Colourspace :=
  M ← BMD_4K_FILM_V3_TO_XYZ_MATRIX;
  M_inv ← XYZ_TO_BMD_4K_FILM_V3_MATRIX;
  Some {| rgb_name := "BMD 4K Film V3";
          rgb_primaries := BMD_4K_FILM_V3_PRIMARIES;
          rgb_whitepoint := BMD_4K_FILM_V3_WHITEPOINT;
          whitepoint_name := BMD_4K_FILM_V3_WHITEPOINT_NAME;
          RGB_to_XYZ_matrix := M;
          XYZ_to_RGB_matrix := M_inv;
          cctf_encoding := log_encoding_BMD4KFilm;
          cctf_decoding := log_decoding_BMD4KFilm |}.

Definition BMD_46K_FILM_V1_PRIMARIES : primaries :=
  ((0.9175, 0.2983),
   (0.2983, 1.2835),
   (0.0756, -0.0860))%Q.
Definition BMD_46K_FILM_V1_WHITEPOINT_NAME : string := "D65".
Definition BMD_46K_FILM_V1_WHITEPOINT : xy := CCS_ILLUMINANTS_D65.
Definition BMD_46K_FILM_V1_TO_XYZ_MATRIX : option mat33 :=
  normalised_primary_matrix BMD_46K_FILM_V1_PRIMARIES BMD_46K_FILM_V1_WHITEPOINT.
Definition XYZ_TO_BMD_46K_FILM_V1_MATRIX : option mat33 :=
  BMD_46K_FILM_V1_TO_XYZ_MATRIX ≫= np_linalg_inv.
Definition RGB_COLOURSPACE_BMD_46K_FILM_V1 : option RGB_Colourspace :=
  M ← BMD_46K_FILM_V1_TO_XYZ_MATRIX;
  M_inv ← XYZ_TO_BMD_46K_FILM_V1_MATRIX;
  Some {| rgb_name := "BMD 46K Film V1";
          rgb_primaries := BMD_46K_FILM_V1_PRIMARIES;
          rgb_whitepoint := BMD_46K_FILM_V1_WHITEPOINT;
          whitepoint_name := BMD_46K_FILM_V1_WHITEPOINT_NAME;
          RGB_to_XYZ_matrix := M;
          XYZ_to_RGB_matrix := M_inv;
          cctf_encoding := log_encoding_BMD46KFilm;
          cctf_decoding := log_decoding_BMD46KFilm |}.

Definition BMD_46K_FILM_V3_PRIMARIES : primaries :=
  ((0.8608, 0.3689),
   (0.3282, 0.6156),
   (0.0783, -0.0233))%Q.
Definition BMD_46K_FILM_V3_WHITEPOINT_NAME : string := "D65".
Definition BMD_46K_FILM_V3_WHITEPOINT : xy := CCS_ILLUMINANTS_D65.
Definition BMD_46K_FILM_V3_TO_XYZ_MATRIX : option mat33 :=
  normalised_primary_matrix BMD_46K_FILM_V3_PRIMARIES BMD_46K_FILM_V3_WHITEPOINT.
Definition XYZ_TO_BMD_46K_FILM_V3_MATRIX : option mat33 :=
  BMD_46K_FILM_V3_TO_XYZ_MATRIX ≫= np_linalg_inv.
Definition RGB_COLOURSPACE_BMD_46K_FILM_V3 : option RGB_Colourspace :=
  M ← BMD_46K_FILM_V3_TO_XYZ_MATRIX;
  M_inv ← XYZ_TO_BMD_46K_FILM_V3_MATRIX;
  Some {| rgb_name := "BMD 46K Film V3";
          rgb_primaries := BMD_46K_FILM_V3_PRIMARIES;
          rgb_whitepoint := BMD_46K_FILM_V3_WHITEPOINT;
          whitepoint_name := BMD_46K_FILM_V3_WHITEPOINT_NAME;
          RGB_to_XYZ_matrix := M;
          XYZ_to_RGB_matrix := M_inv;
          cctf_encoding := log_encoding_BMD46KFilm;
          cctf_decoding := log_decoding_BMD46KFilm |}.

Definition BMD_WIDE_GAMUT_V4_PRIMARIES : primaries :=
  ((0.7177, 0.3171),
   (0.2280, 0.8616),
   (0.1006, -0.0820))%Q.
Definition BMD_WIDE_GAMUT_V4_WHITEPOINT_NAME : string := "D65".
Definition BMD_WIDE_GAMUT_V4_WHITEPOINT : xy := CCS_ILLUMINANTS_D65.
Definition BMD_WIDE_GAMUT_V4_TO_XYZ_MATRIX : option mat33 :=
  normalised_primary_matrix BMD_WIDE_GAMUT_V4_PRIMARIES BMD_WIDE_GAMUT_V4_WHITEPOINT.
Definition XYZ_TO_BMD_WIDE_GAMUT_V4_MATRIX : option mat33 :=
  BMD_WIDE_GAMUT_V4_TO_XYZ_MATRIX ≫= np_linalg_inv.
Definition RGB_COLOURSPACE_BMD_WIDE_GAMUT_V4 : option RGB_Colourspace :=
  M ← BMD_WIDE_GAMUT_V4_TO_XYZ_MATRIX;
  M_inv ← XYZ_TO_BMD_WIDE_GAMUT_V4_MATRIX;
  Some {| rgb_name := "BMD Wide Gamut V4";
          rgb_primaries := BMD_WIDE_GAMUT_V4_PRIMARIES;
          rgb_whitepoint := BMD_WIDE_GAMUT_V4_WHITEPOINT;
          whitepoint_name := BMD_WIDE_GAMUT_V4_WHITEPOINT_NAME;
          RGB_to_XYZ_matrix := M;
          XYZ_to_RGB_matrix := M_inv;
          cctf_encoding := log_encoding_BMDPocket4KFilmV4;
          cctf_decoding := log_decoding_BMDPocket4KFilmV4 |}.

(** *** The registry *)

(** A registered colourspace is of either record class. *)
Inductive registered : Type :=
| Alexa (cs : Colourspace)
| Blackmagic (cs : RGB_Colourspace).

Definition registered_name (r : registered) : string :=
  match r with Alexa cs => name cs | Blackmagic cs => rgb_name cs end.

Definition registered_primaries (r : registered) : primaries :=
  match r with Alexa cs => cs_primaries cs | Blackmagic cs => rgb_primaries cs end.

Definition registered_whitepoint (r : registered) : xy :=
  match r with Alexa cs => whitepoint cs | Blackmagic cs => rgb_whitepoint cs end.

Definition rgbToXyzMatrix (r : registered) : mat33 :=
  match r with Alexa cs => to_XYZ cs | Blackmagic cs => RGB_to_XYZ_matrix cs end.

Definition xyzToRgbMatrix (r : registered) : mat33 :=
  match r with Alexa cs => from_XYZ cs | Blackmagic cs => XYZ_to_RGB_matrix cs end.

(** Modelled from the spec: the registry and its [get(name)] are not
    among the sources.  The registry holds the colourspaces the two
    dataset files construct (those whose construction succeeds), and
    [get] returns the one of the requested name, failing with "not found"
    ([None]) if there is none. *)
Definition registry : list registered :=
  omap (fun o => o) [ Alexa <$> ALEXA_WIDE_GAMUT_RGB_COLOURSPACE;
                       Blackmagic <$> RGB_COLOURSPACE_BMD_FILM_V1;
                       Blackmagic <$> RGB_COLOURSPACE_BMD_4K_FILM_V1;
                       Blackmagic <$> RGB_COLOURSPACE_BMD_4K_FILM_V3;
                       Blackmagic <$> RGB_COLOURSPACE_BMD_46K_FILM_V1;
                       Blackmagic <$> RGB_COLOURSPACE_BMD_46K_FILM_V3;
                       Blackmagic <$> RGB_COLOURSPACE_BMD_WIDE_GAMUT_V4 ].

Definition get (n : string) : option registered :=
  List.find (fun r => String.eqb (registered_name r) n) registry.

End Datasets.

(** The CIE D65 chromaticity, the value used where a concrete table entry
    is needed. *)
Definition D65_standard : xy := (0.3127, 0.3290)%Q.

(** ** setup.py *)

(** A Python unicode string: its code points. *)
Abbreviation unicode := (list N) (only parsing).

Definition unicode_of (s : string) : unicode :=
  Ascii.N_of_ascii <$> String.list_ascii_of_string s.

Definition COLON : N := 58.
Definition LF : N := 10.

(** [s.startswith(prefix)] *)
Fixpoint startswith (s prefix : unicode) : bool :=
  match prefix with
  | [] => true
  | c :: prefix' =>
      match s with
      | [] => false
      | c' :: s' => N.eqb c c' && startswith s' prefix'
      end
  end.

(** [sub in s] *)
Fixpoint contains (sub s : unicode) : bool :=
  startswith s sub ||
  match s with
  | [] => false
  | _ :: s' => contains sub s'
  end.

(** [re.search(r":$", s)]: without [re.MULTILINE], [$] matches at the end
    of the string and just before a newline that ends the string. *)
Definition search_colon_at_end (s : unicode) : bool :=
  match rev s with
  | c :: r =>
      N.eqb c COLON ||
      (N.eqb c LF && match r with c' :: _ => N.eqb c' COLON | [] => false end)
  | [] => false
  end.

Definition two_colons (r : unicode) : bool :=
  match r with
  | c :: c' :: _ => N.eqb c COLON && N.eqb c' COLON
  | _ => false
  end.

(** [re.search(r"::$", s)] *)
Definition search_two_colons_at_end (s : unicode) : bool :=
  two_colons (rev s) ||
  match rev s with
  | c :: r => N.eqb c LF && two_colons r
  | [] => false
  end.

(** The first occurrence of [sep] in [r]: what precedes it and what
    follows it. *)
Fixpoint break_at (sep : N) (r : unicode) : option (unicode * unicode) :=
  match r with
  | [] => None
  | c :: r' =>
      if N.eqb c sep then Some ([], r')
      else match break_at sep r' with
           | Some (before, after) => Some (c :: before, after)
           | None => None
           end
  end.

(** [s.rsplit(sep, 1)] for a separator of one character: split at the
    last occurrence, if there is one. *)
Definition rsplit1 (s : unicode) (sep : N) : list unicode :=
  match break_at sep (rev s) with
  | Some (after_reversed, before_reversed) =>
      [rev before_reversed; rev after_reversed]
  | None => [s]
  end.

(** [sep.join(parts)] *)
Fixpoint join (sep : unicode) (parts : list unicode) : unicode :=
  match parts with
  | [] => []
  | part :: parts' =>
      match parts' with
      | [] => part
      | _ :: _ => part ++ sep ++ join sep parts'
      end
  end.

(** [l[-2]] and [l[-2] = x]: an [IndexError] on fewer than two items. *)
Definition getitem_minus_2 {A} (l : list A) : result A :=
  if (length l <? 2)%nat then Raise IndexError
  else match l !! (length l - 2)%nat with
       | Some x => Ok x
       | None => Raise IndexError
       end.

Definition setitem_minus_2 {A} (l : list A) (x : A) : result (list A) :=
  if (length l <? 2)%nat then Raise IndexError
  else Ok (<[(length l - 2)%nat := x]> l).

Definition code_marker : unicode := unicode_of ".. code:: python".

(** One iteration of the loop of [get_long_description] over the lines of
    the readme, on the list [description] built so far. *)
Definition loop_body (description : list unicode) (line : unicode)
  : result (list unicode) :=
  if contains code_marker line && (2 <=? length description)%nat
  then
    blockLine ← getitem_minus_2 description;
    if search_colon_at_end blockLine && negb (search_two_colons_at_end blockLine)
    then setitem_minus_2 description
           (join (unicode_of "::") (rsplit1 blockLine COLON))
    else Ok description
  else Ok (description ++ [line]).

Fixpoint for_lines (description : list unicode) (lines : list unicode)
  : result (list unicode) :=
  match lines with
  | [] => Ok description
  | line :: lines' =>
      description' ← loop_body description line;
      for_lines description' lines'
  end.

(** [get_long_description()], as a function of the lines the iteration
    over the opened readme yields. *)
Definition get_long_description (readme : list unicode) : result unicode :=
  description ← for_lines [] readme;
  Ok (concat description).

(** ** Predicates of the statements *)

(** What the loop of [get_long_description] makes of the line two before
    a marker: its condition and its assignment. *)
Definition fix_block (blockLine : unicode) : unicode :=
  if search_colon_at_end blockLine && negb (search_two_colons_at_end blockLine)
  then join (unicode_of "::") (rsplit1 blockLine COLON)
  else blockLine.

(** [s.endswith(":")] *)
Definition endswith_colon (s : unicode) : bool :=
  match rev s with
  | c :: _ => N.eqb c COLON
  | [] => false
  end.

(** A line that does not hold the marker. *)
Definition plain (line : unicode) : Prop := contains code_marker line = false.

(** What the constructor calls of [blackmagic.py] establish. *)
Definition derived (cs : RGB_Colourspace) : Prop :=
  normalised_primary_matrix (rgb_primaries cs) (rgb_whitepoint cs) =
    Some (RGB_to_XYZ_matrix cs) /\
  np_linalg_inv (RGB_to_XYZ_matrix cs) = Some (XYZ_to_RGB_matrix cs).

(** What a constructor call of [blackmagic.py] yields, field by field. *)
Definition constructed (n : string) (P : primaries) (W : xy) (wn : string)
    (enc dec : cctf) (cs : RGB_Colourspace) : Prop :=
  exists M Mi,
    normalised_primary_matrix P W = Some M /\
    np_linalg_inv M = Some Mi /\
    cs = {| rgb_name := n; rgb_primaries := P; rgb_whitepoint := W;
            whitepoint_name := wn; RGB_to_XYZ_matrix := M;
            XYZ_to_RGB_matrix := Mi; cctf_encoding := enc;
            cctf_decoding := dec |}.

(** The registry, slot by slot, with the name each constructor call
    passes. *)
Definition registry_slots (ILLUMINANTS_D65 CCS_ILLUMINANTS_D65 : xy)
  : list (string * option registered) :=
  [ ("ALEXA Wide Gamut RGB",
     Alexa <$> ALEXA_WIDE_GAMUT_RGB_COLOURSPACE ILLUMINANTS_D65);
    ("BMD Film V1", Blackmagic <$> RGB_COLOURSPACE_BMD_FILM_V1);
    ("BMD 4K Film V1", Blackmagic <$> RGB_COLOURSPACE_BMD_4K_FILM_V1);
    ("BMD 4K Film V3", Blackmagic <$> RGB_COLOURSPACE_BMD_4K_FILM_V3);
    ("BMD 46K Film V1",
     Blackmagic <$> RGB_COLOURSPACE_BMD_46K_FILM_V1 CCS_ILLUMINANTS_D65);
    ("BMD 46K Film V3",
     Blackmagic <$> RGB_COLOURSPACE_BMD_46K_FILM_V3 CCS_ILLUMINANTS_D65);
    ("BMD Wide Gamut V4",
     Blackmagic <$> RGB_COLOURSPACE_BMD_WIDE_GAMUT_V4 CCS_ILLUMINANTS_D65) ].

(** * Properties *)

(** ** The result monad *)

Lemma bind_Ok {A B} (r : result A) (k : A -> result B) (b : B) :
  r ≫= k = Ok b <-> exists a, r = Ok a /\ k a = Ok b.
Proof.
  destruct r as [a|e]; cbn; split.
  - intros H. exists a. auto.
  - intros (a' & [= <-] & Hk). exact Hk.
  - discriminate.
  - intros (a' & Ha & _). discriminate.
Qed.

Lemma bind_Ok_l {A B} (a : A) (k : A -> result B) : Ok a ≫= k = k a.
Proof. reflexivity. Qed.

(** ** The coefficient table *)

(** A lookup succeeds exactly on the keys of the nested dictionaries. *)
Lemma lookup_coefficients_Ok (firmware method : string) (EI : Z) (t : coefficients) :
  lookup_coefficients firmware method EI = Ok t <->
  exists by_method by_EI,
    ALEXA_LOG_C_CURVE_CONVERSION_DATA !! firmware = Some by_method /\
    by_method !! method = Some by_EI /\
    by_EI !! EI = Some t.
Proof.
  unfold lookup_coefficients.
  generalize ALEXA_LOG_C_CURVE_CONVERSION_DATA. intros data. cbn. split.
  - destruct (data !! firmware) as [ms|]; cbn; [|discriminate].
    destruct (ms !! method) as [eis|] eqn:E2; cbn; [|discriminate].
    destruct (eis !! EI) as [t'|] eqn:E3; cbn; [|discriminate].
    intros [= ->]. eauto.
  - intros (ms & eis & -> & H2 & H3). cbn. rewrite H2. cbn. rewrite H3.
    reflexivity.
Qed.

Lemma lookup_coefficients_entries (firmware method : string) (EI : Z) (t : coefficients) :
  lookup_coefficients firmware method EI = Ok t <->
  (firmware, method, EI, t) ∈ table_entries ALEXA_LOG_C_CURVE_CONVERSION_DATA.
Proof.
  rewrite lookup_coefficients_Ok. unfold table_entries.
  generalize ALEXA_LOG_C_CURVE_CONVERSION_DATA. intros data. split.
  - intros (ms & eis & H1 & H2 & H3).
    apply list_elem_of_bind. exists (firmware, ms). split.
    2: now apply elem_of_map_to_list.
    apply list_elem_of_bind. exists (method, eis). split.
    2: now apply elem_of_map_to_list.
    apply list_elem_of_bind. exists (EI, t). split.
    2: now apply elem_of_map_to_list.
    apply list_elem_of_singleton. reflexivity.
  - intros H.
    apply list_elem_of_bind in H as ([fw ms] & H & H1).
    apply list_elem_of_bind in H as ([m eis] & H & H2).
    apply list_elem_of_bind in H as ([ei t'] & H & H3).
    apply list_elem_of_singleton in H. injection H as -> -> -> ->.
    apply elem_of_map_to_list in H1, H2, H3. eauto.
Qed.

(** The table answers 22 configurations: one firmware, two methods,
    eleven exposure indices. *)
Lemma table_entries_length :
  length (table_entries ALEXA_LOG_C_CURVE_CONVERSION_DATA) = 22%nat.
Proof. vm_compute. reflexivity. Qed.

Lemma table_well_formed :
  forallb (fun e => well_formed e.2)
          (table_entries ALEXA_LOG_C_CURVE_CONVERSION_DATA) = true.
Proof. vm_compute. reflexivity. Qed.

Lemma forallb_elem_of {A} (p : A -> bool) (l : list A) (x : A) :
  forallb p l = true -> x ∈ l -> p x = true.
Proof.
  intros Hall Hx. rewrite forallb_forall in Hall.
  apply Hall. apply list_elem_of_In. exact Hx.
Qed.

Lemma lookup_well_formed (firmware method : string) (EI : Z) (t : coefficients) :
  lookup_coefficients firmware method EI = Ok t -> well_formed t = true.
Proof.
  intros H. apply lookup_coefficients_entries in H.
  exact (forallb_elem_of (fun e => well_formed e.2)
           (table_entries ALEXA_LOG_C_CURVE_CONVERSION_DATA)
           (firmware, method, EI, t) table_well_formed H).
Qed.

Lemma Qltb_Rlt (x y : Q) : Qltb x y = true -> (Q2R x < Q2R y)%R.
Proof.
  unfold Qltb. intros H. apply Qlt_Rlt. apply Qnot_le_lt.
  intros Hle. apply Qle_bool_iff in Hle. rewrite Hle in H. discriminate.
Qed.

Lemma Q2R_0 : Q2R 0 = 0%R.
Proof. unfold Q2R. cbn. lra. Qed.

(** The real-number reading of [well_formed]. *)
Lemma well_formed_real (cut a b c d e f ecutf : Q) :
  well_formed (cut, a, b, c, d, e, f, ecutf) = true ->
  (0 < Q2R a /\ 0 < Q2R a * Q2R cut + Q2R b /\ 0 < Q2R c /\ 0 < Q2R e)%R.
Proof.
  unfold well_formed. rewrite !andb_true_iff.
  intros [[[Ha Hab] Hc] He].
  apply Qltb_Rlt in Ha, Hab, Hc, He.
  rewrite Q2R_0 in *. rewrite Q2R_plus, Q2R_mult in Hab. tauto.
Qed.

Lemma log_argument_positive (cut a b v : R) :
  (0 < a -> 0 < a * cut + b -> v > cut -> a * v + b > 0)%R.
Proof. intros. nra. Qed.

(** ** The Python primitives *)

Lemma Rgtb_true (x y : R) : (x > y)%R -> Rgtb x y = true.
Proof. intros H. unfold Rgtb. destruct (Rgt_dec x y); [reflexivity | contradiction]. Qed.

Lemma Rgtb_false (x y : R) : (x <= y)%R -> Rgtb x y = false.
Proof. intros H. unfold Rgtb. destruct (Rgt_dec x y); [lra | reflexivity]. Qed.

Lemma math_log10_pos (x : R) : (x > 0)%R -> math_log10 x = Ok (log10 x).
Proof.
  intros H. unfold math_log10. destruct (Rgt_dec x 0); [reflexivity | contradiction].
Qed.

Lemma truediv_nonzero (x y : R) : y <> 0%R -> truediv x y = Ok (x / y)%R.
Proof.
  intros H. unfold truediv. destruct (Req_dec_T y 0); [contradiction | reflexivity].
Qed.

Lemma math_pow10_in_range (y : R) :
  (Rpower 10 y <= DBL_MAX)%R -> math_pow10 y = Ok (Rpower 10 y).
Proof.
  intros H. unfold math_pow10.
  destruct (Rgt_dec (Rpower 10 y) DBL_MAX); [lra | reflexivity].
Qed.

Lemma math_pow10_overflow (y : R) :
  (Rpower 10 y > DBL_MAX)%R -> math_pow10 y = Raise OverflowError.
Proof.
  intros H. unfold math_pow10.
  destruct (Rgt_dec (Rpower 10 y) DBL_MAX); [reflexivity | contradiction].
Qed.

Lemma Rpower_10_nat (n : nat) : Rpower 10 (INR n) = IZR (10 ^ Z.of_nat n).
Proof. rewrite Rpower_pow by lra. apply pow_IZR. Qed.

(** [10 ^ 308] is within the binary64 range, [10 ^ 309] beyond it. *)
Lemma Rpower_10_le_DBL_MAX (y : R) : (y <= 308)%R -> (Rpower 10 y <= DBL_MAX)%R.
Proof.
  intros Hy. apply Rle_trans with (Rpower 10 (INR 308)).
  - apply Rle_Rpower; [lra|]. rewrite INR_IZR_INZ. exact Hy.
  - rewrite Rpower_10_nat. unfold DBL_MAX. apply IZR_le.
    vm_compute. discriminate.
Qed.


(** ** The transfer function pair *)

(** Once the lookup has answered, the forward function is its
    conditional expression. *)
Lemma transfer_function_found (value : R) (firmware method : string) (EI : Z)
    (cut a b c d e f ecutf : Q) :
  lookup_coefficients firmware method EI = Ok (cut, a, b, c, d, e, f, ecutf) ->
  __alexa_wide_gamut_rgb_transfer_function value firmware method EI =
    if Rgtb value (Q2R cut)
    then l ← math_log10 (Q2R a * value + Q2R b)%R; mret (Q2R c * l + Q2R d)%R
    else mret (Q2R ecutf).
Proof.
  intros H. unfold __alexa_wide_gamut_rgb_transfer_function.
  rewrite H. reflexivity.
Qed.

Lemma inverse_transfer_function_found (value : R) (firmware method : string) (EI : Z)
    (cut a b c d e f ecutf : Q) :
  lookup_coefficients firmware method EI = Ok (cut, a, b, c, d, e, f, ecutf) ->
  __alexa_wide_gamut_rgb_inverse_transfer_function value firmware method EI =
    if Rgtb value (Q2R ecutf)
    then y ← truediv (value - Q2R d)%R (Q2R c);
         p ← math_pow10 y;
         truediv (p - Q2R b)%R (Q2R a)
    else truediv (value - Q2R f)%R (Q2R e).
Proof.
  intros H. unfold __alexa_wide_gamut_rgb_inverse_transfer_function.
  rewrite H. reflexivity.
Qed.

(** When the lookup raises, both functions raise the same exception. *)
Lemma transfer_function_not_found (value : R) (firmware method : string) (EI : Z)
    (e : exn) :
  lookup_coefficients firmware method EI = Raise e ->
  __alexa_wide_gamut_rgb_transfer_function value firmware method EI = Raise e /\
  __alexa_wide_gamut_rgb_inverse_transfer_function value firmware method EI = Raise e.
Proof.
  intros H.
  unfold __alexa_wide_gamut_rgb_transfer_function,
    __alexa_wide_gamut_rgb_inverse_transfer_function.
  rewrite H. split; reflexivity.
Qed.

Lemma transfer_function_above_cut (v : R) (firmware method : string) (EI : Z)
    (cut a b c d e f ecutf : Q) :
  lookup_coefficients firmware method EI = Ok (cut, a, b, c, d, e, f, ecutf) ->
  (v > Q2R cut)%R ->
  __alexa_wide_gamut_rgb_transfer_function v firmware method EI =
    Ok (Q2R c * log10 (Q2R a * v + Q2R b) + Q2R d)%R.
Proof.
  intros H Hv.
  rewrite (transfer_function_found _ _ _ _ _ _ _ _ _ _ _ _ H).
  pose proof (lookup_well_formed _ _ _ _ H) as Hwf.
  apply well_formed_real in Hwf as (Ha & Hab & _ & _).
  rewrite Rgtb_true by exact Hv.
  rewrite math_log10_pos by (apply (log_argument_positive (Q2R cut)); assumption).
  reflexivity.
Qed.

Lemma transfer_function_upto_cut (v : R) (firmware method : string) (EI : Z)
    (cut a b c d e f ecutf : Q) :
  lookup_coefficients firmware method EI = Ok (cut, a, b, c, d, e, f, ecutf) ->
  (v <= Q2R cut)%R ->
  __alexa_wide_gamut_rgb_transfer_function v firmware method EI = Ok (Q2R ecutf).
Proof.
  intros H Hv.
  rewrite (transfer_function_found _ _ _ _ _ _ _ _ _ _ _ _ H).
  rewrite Rgtb_false by exact Hv. reflexivity.
Qed.

Lemma inverse_transfer_function_above_ecutf (v : R) (firmware method : string)
    (EI : Z) (cut a b c d e f ecutf : Q) :
  lookup_coefficients firmware method EI = Ok (cut, a, b, c, d, e, f, ecutf) ->
  (v > Q2R ecutf)%R ->
  (Rpower 10 ((v - Q2R d) / Q2R c) <= DBL_MAX)%R ->
  __alexa_wide_gamut_rgb_inverse_transfer_function v firmware method EI =
    Ok ((Rpower 10 ((v - Q2R d) / Q2R c) - Q2R b) / Q2R a)%R.
Proof.
  intros H Hv Hp.
  rewrite (inverse_transfer_function_found _ _ _ _ _ _ _ _ _ _ _ _ H).
  pose proof (lookup_well_formed _ _ _ _ H) as Hwf.
  apply well_formed_real in Hwf as (Ha & _ & Hc & He).
  rewrite Rgtb_true by exact Hv.
  rewrite truediv_nonzero, bind_Ok_l by lra.
  rewrite math_pow10_in_range, bind_Ok_l by exact Hp.
  rewrite truediv_nonzero by lra. reflexivity.
Qed.

Lemma inverse_transfer_function_overflow (v : R) (firmware method : string)
    (EI : Z) (cut a b c d e f ecutf : Q) :
  lookup_coefficients firmware method EI = Ok (cut, a, b, c, d, e, f, ecutf) ->
  (v > Q2R ecutf)%R ->
  (Rpower 10 ((v - Q2R d) / Q2R c) > DBL_MAX)%R ->
  __alexa_wide_gamut_rgb_inverse_transfer_function v firmware method EI =
    Raise OverflowError.
Proof.
  intros H Hv Hp.
  rewrite (inverse_transfer_function_found _ _ _ _ _ _ _ _ _ _ _ _ H).
  pose proof (lookup_well_formed _ _ _ _ H) as Hwf.
  apply well_formed_real in Hwf as (Ha & _ & Hc & He).
  rewrite Rgtb_true by exact Hv.
  rewrite truediv_nonzero, bind_Ok_l by lra.
  rewrite math_pow10_overflow by exact Hp. reflexivity.
Qed.

Lemma inverse_transfer_function_upto_ecutf (v : R) (firmware method : string)
    (EI : Z) (cut a b c d e f ecutf : Q) :
  lookup_coefficients firmware method EI = Ok (cut, a, b, c, d, e, f, ecutf) ->
  (v <= Q2R ecutf)%R ->
  __alexa_wide_gamut_rgb_inverse_transfer_function v firmware method EI =
    Ok ((v - Q2R f) / Q2R e)%R.
Proof.
  intros H Hv.
  rewrite (inverse_transfer_function_found _ _ _ _ _ _ _ _ _ _ _ _ H).
  pose proof (lookup_well_formed _ _ _ _ H) as Hwf.
  apply well_formed_real in Hwf as (Ha & _ & Hc & He).
  rewrite Rgtb_false by exact Hv.
  rewrite truediv_nonzero by lra. reflexivity.
Qed.

(** C5: with the tuple the lookup found, the forward function returns
    [c * log10(a * v + b) + d] when [v > cut] and [ecutf] when
    [v <= cut]. *)
Theorem transfer_function_piecewise (v : R) (firmware method : string) (EI : Z)
    (cut a b c d e f ecutf : Q) :
  lookup_coefficients firmware method EI = Ok (cut, a, b, c, d, e, f, ecutf) ->
  ((v > Q2R cut)%R ->
     ALEXA_WIDE_GAMUT_RGB_TRANSFER_FUNCTION v firmware method EI =
       Ok (Q2R c * log10 (Q2R a * v + Q2R b) + Q2R d)%R) /\
  ((v <= Q2R cut)%R ->
     ALEXA_WIDE_GAMUT_RGB_TRANSFER_FUNCTION v firmware method EI = Ok (Q2R ecutf)).
Proof.
  intros H. unfold ALEXA_WIDE_GAMUT_RGB_TRANSFER_FUNCTION. split; intros Hv.
  - exact (transfer_function_above_cut _ _ _ _ _ _ _ _ _ _ _ _ H Hv).
  - exact (transfer_function_upto_cut _ _ _ _ _ _ _ _ _ _ _ _ H Hv).
Qed.

Lemma transfer_function_piecewise_witness :
  ALEXA_WIDE_GAMUT_RGB_TRANSFER_FUNCTION 0.18
    "SUP 3.x" "Linear Scene Exposure Factor" 800 =
  Ok (Q2R 0.247189 * log10 (Q2R 5.061087 * 0.18 + Q2R 0.089004) + Q2R 0.391007)%R.
Proof.
  apply (transfer_function_piecewise 0.18 "SUP 3.x"
           "Linear Scene Exposure Factor" 800
           0.000000 5.061087 0.089004 0.247189 0.391007 4.950469
           0.131313 0.131313).
  - vm_compute. reflexivity.
  - unfold Q2R. cbn. lra.
Defined.




(** C10: for every tuple of the table, the forward function evaluated at
    the crossover [cut] itself returns [ecutf]. *)
Theorem transfer_function_at_cut (firmware method : string) (EI : Z)
    (cut a b c d e f ecutf : Q) :
  lookup_coefficients firmware method EI = Ok (cut, a, b, c, d, e, f, ecutf) ->
  ALEXA_WIDE_GAMUT_RGB_TRANSFER_FUNCTION (Q2R cut) firmware method EI =
    Ok (Q2R ecutf).
Proof.
  intros H. unfold ALEXA_WIDE_GAMUT_RGB_TRANSFER_FUNCTION.
  apply (transfer_function_upto_cut _ _ _ _ _ _ _ _ _ _ _ _ H). lra.
Qed.

Lemma transfer_function_at_cut_witness :
  ALEXA_WIDE_GAMUT_RGB_TRANSFER_FUNCTION (Q2R 0.003907)
    "SUP 3.x" "Normalised Sensor Signal" 800 = Ok (Q2R 0.13131).
Proof.
  apply (transfer_function_at_cut "SUP 3.x" "Normalised Sensor Signal" 800
           0.003907 182.199144 (-0.622848) 0.247189 0.391007 178.216873
           (-0.564981) 0.13131).
  vm_compute. reflexivity.
Defined.

(** ** Which configurations the table answers *)

Lemma lookup_coefficients_cases (firmware method : string) (EI : Z) :
  lookup_coefficients firmware method EI =
  match ALEXA_LOG_C_CURVE_CONVERSION_DATA !! firmware with
  | None => Raise AttributeError
  | Some by_method =>
      match by_method !! method with
      | None => Raise AttributeError
      | Some by_EI =>
          match by_EI !! EI with
          | None => Raise TypeError
          | Some t => Ok t
          end
      end
  end.
Proof.
  unfold lookup_coefficients.
  generalize ALEXA_LOG_C_CURVE_CONVERSION_DATA. intros data. cbn.
  destruct (data !! firmware) as [ms|]; cbn; [|reflexivity].
  destruct (ms !! method) as [eis|]; cbn; [|reflexivity].
  destruct (eis !! EI); reflexivity.
Qed.

Lemma lookup_SUP_2 (method : string) (EI : Z) :
  lookup_coefficients "SUP 2.x" method EI = Raise AttributeError.
Proof.
  rewrite lookup_coefficients_cases.
  replace (ALEXA_LOG_C_CURVE_CONVERSION_DATA !! "SUP 2.x") with
    (@None (gmap string (gmap Z coefficients))); [reflexivity|].
  vm_compute. reflexivity.
Qed.

(** C2: the display writes the firmware key "SUP 3.x" twice, so the
    dictionary has that one firmware key, bound to the second block
    written (and not to the first); there is no entry for "SUP 2.x", and
    both functions called with firmware "SUP 2.x" fail in the chained
    [.get] with an [AttributeError], whatever the other arguments. *)
Theorem duplicate_firmware_key :
  ALEXA_LOG_C_CURVE_CONVERSION_DATA_items.*1 = ["SUP 3.x"; "SUP 3.x"] /\
  dom ALEXA_LOG_C_CURVE_CONVERSION_DATA = ({["SUP 3.x"]} : gset string) /\
  ALEXA_LOG_C_CURVE_CONVERSION_DATA !! "SUP 3.x" =
    snd <$> ALEXA_LOG_C_CURVE_CONVERSION_DATA_items !! 1%nat /\
  ALEXA_LOG_C_CURVE_CONVERSION_DATA !! "SUP 3.x" <>
    snd <$> ALEXA_LOG_C_CURVE_CONVERSION_DATA_items !! 0%nat /\
  ALEXA_LOG_C_CURVE_CONVERSION_DATA !! "SUP 2.x" = None /\
  forall (v : R) (method : string) (EI : Z),
    ALEXA_WIDE_GAMUT_RGB_TRANSFER_FUNCTION v "SUP 2.x" method EI =
      Raise AttributeError /\
    ALEXA_WIDE_GAMUT_RGB_INVERSE_TRANSFER_FUNCTION v "SUP 2.x" method EI =
      Raise AttributeError.
Proof.
  split; [reflexivity|].
  split; [vm_compute; reflexivity|].
  split; [vm_compute; reflexivity|].
  split.
  { intros Heq.
    apply (f_equal (fun o => by_method ← o;
                             by_EI ← by_method !! "Linear Scene Exposure Factor";
                             by_EI !! 800%Z)) in Heq.
    vm_compute in Heq. discriminate Heq. }
  split; [vm_compute; reflexivity|].
  intros v method EI.
  apply transfer_function_not_found, lookup_SUP_2.
Qed.

(** C1 (the code at the scenario's input): for firmware "SUP 3.x", method
    "Linear Scene Exposure Factor" and exposure index 800 the lookup
    returns the tuple of the second block written under "SUP 3.x", no
    component of which is the one the scenario lists, and the forward
    function at 0.18 is computed from that tuple.  The tuple of the
    scenario is the one the first block holds. *)
Theorem default_configuration_coefficients :
  lookup_coefficients "SUP 3.x" "Linear Scene Exposure Factor" 800 =
    Ok (0.000000, 5.061087, 0.089004, 0.247189, 0.391007, 4.950469,
        0.131313, 0.131313)%Q /\
  (~ 0.000000 == 0.010591 /\ ~ 5.061087 == 5.555556 /\
   ~ 0.089004 == 0.052272 /\ ~ 0.247189 == 0.247190 /\
   ~ 0.391007 == 0.385537 /\ ~ 4.950469 == 5.367655 /\
   ~ 0.131313 == 0.092809 /\ ~ 0.131313 == 0.149658)%Q /\
  (by_method ← snd <$> ALEXA_LOG_C_CURVE_CONVERSION_DATA_items !! 0%nat;
   by_EI ← by_method !! "Linear Scene Exposure Factor";
   by_EI !! 800%Z) =
    Some (0.010591, 5.555556, 0.052272, 0.247190, 0.385537, 5.367655,
          0.092809, 0.149658)%Q /\
  ALEXA_WIDE_GAMUT_RGB_TRANSFER_FUNCTION 0.18
    "SUP 3.x" "Linear Scene Exposure Factor" 800 =
    Ok (Q2R 0.247189 * log10 (Q2R 5.061087 * 0.18 + Q2R 0.089004)
        + Q2R 0.391007)%R.
Proof.
  assert (Hl : lookup_coefficients "SUP 3.x" "Linear Scene Exposure Factor" 800 =
    Ok (0.000000, 5.061087, 0.089004, 0.247189, 0.391007, 4.950469,
        0.131313, 0.131313)%Q) by (vm_compute; reflexivity).
  split; [exact Hl|].
  split.
  { repeat split; intros H; vm_compute in H; discriminate H. }
  split; [vm_compute; reflexivity|].
  unfold ALEXA_WIDE_GAMUT_RGB_TRANSFER_FUNCTION.
  rewrite (transfer_function_found _ _ _ _ _ _ _ _ _ _ _ _ Hl).
  rewrite Rgtb_true by (unfold Q2R; cbn; lra).
  rewrite math_log10_pos by (unfold Q2R; cbn; lra).
  reflexivity.
Qed.


(** With the three keys present the forward function returns. *)
Lemma transfer_function_returns (v : R) (firmware method : string) (EI : Z)
    (t : coefficients) :
  lookup_coefficients firmware method EI = Ok t ->
  returns (ALEXA_WIDE_GAMUT_RGB_TRANSFER_FUNCTION v firmware method EI).
Proof.
  destruct t as [[[[[[[cut a] b] c] d] e] f] ecutf]. intros H.
  unfold ALEXA_WIDE_GAMUT_RGB_TRANSFER_FUNCTION.
  destruct (Rgt_dec v (Q2R cut)) as [Hv|Hv]; eexists.
  - exact (transfer_function_above_cut _ _ _ _ _ _ _ _ _ _ _ _ H Hv).
  - apply (transfer_function_upto_cut _ _ _ _ _ _ _ _ _ _ _ _ H). lra.
Qed.

(** With the three keys present the inverse function raises the range
    error of [math.pow], when the value is above [ecutf] and the power of
    ten beyond the binary64 range, and returns otherwise. *)
Lemma inverse_transfer_function_outcome (v : R) (firmware method : string)
    (EI : Z) (cut a b c d e f ecutf : Q) :
  lookup_coefficients firmware method EI = Ok (cut, a, b, c, d, e, f, ecutf) ->
  let decode :=
    ALEXA_WIDE_GAMUT_RGB_INVERSE_TRANSFER_FUNCTION v firmware method EI in
  ((v > Q2R ecutf)%R /\ (Rpower 10 ((v - Q2R d) / Q2R c) > DBL_MAX)%R /\
   decode = Raise OverflowError) \/
  (((v <= Q2R ecutf)%R \/ (Rpower 10 ((v - Q2R d) / Q2R c) <= DBL_MAX)%R) /\
   returns decode).
Proof.
  intros H decode. subst decode.
  unfold ALEXA_WIDE_GAMUT_RGB_INVERSE_TRANSFER_FUNCTION.
  destruct (Rgt_dec v (Q2R ecutf)) as [Hv|Hv].
  - destruct (Rgt_dec (Rpower 10 ((v - Q2R d) / Q2R c)) DBL_MAX) as [Hp|Hp].
    + left. split; [exact Hv|]. split; [exact Hp|].
      exact (inverse_transfer_function_overflow _ _ _ _ _ _ _ _ _ _ _ _ H Hv Hp).
    + right. split; [right; lra|]. eexists.
      apply (inverse_transfer_function_above_ecutf _ _ _ _ _ _ _ _ _ _ _ _ H Hv).
      lra.
  - right. split; [left; lra|]. eexists.
    apply (inverse_transfer_function_upto_ecutf _ _ _ _ _ _ _ _ _ _ _ _ H). lra.
Qed.


(** ** Round trips *)

Lemma ln_10_pos : (0 < ln 10)%R.
Proof. rewrite <- ln_1. apply ln_increasing; lra. Qed.

Lemma Rpower_10_log10 (z : R) : (0 < z)%R -> Rpower 10 (log10 z) = z.
Proof.
  intros Hz. unfold Rpower, log10.
  replace (ln z / ln 10 * ln 10)%R with (ln z).
  - apply exp_ln, Hz.
  - pose proof ln_10_pos. field. lra.
Qed.

Lemma log10_Rpower_10 (y : R) : log10 (Rpower 10 y) = y.
Proof.
  unfold log10. rewrite ln_Rpower. pose proof ln_10_pos. field. lra.
Qed.

Lemma log10_ge_minus_1 (z : R) : (/ 10 <= z)%R -> (-1 <= log10 z)%R.
Proof.
  intros Hz. unfold log10. pose proof ln_10_pos as H10.
  assert (Hln : (ln (/ 10) <= ln z)%R).
  { destruct Hz as [Hz|<-]; [left; apply ln_increasing; lra | right; reflexivity]. }
  rewrite ln_Rinv in Hln by lra.
  apply (Rmult_le_reg_r (ln 10)); [exact H10|].
  replace (ln z / ln 10 * ln 10)%R with (ln z) by (field; lra). lra.
Qed.

(** Below the crossover the forward function has forgotten its argument:
    the round trip returns the one value [(ecutf - f) / e]. *)
Lemma round_trip_upto_cut (v : R) (firmware method : string) (EI : Z)
    (cut a b c d e f ecutf : Q) :
  lookup_coefficients firmware method EI = Ok (cut, a, b, c, d, e, f, ecutf) ->
  (v <= Q2R cut)%R ->
  round_trip v firmware method EI = Ok ((Q2R ecutf - Q2R f) / Q2R e)%R.
Proof.
  intros H Hv. unfold round_trip, ALEXA_WIDE_GAMUT_RGB_TRANSFER_FUNCTION,
    ALEXA_WIDE_GAMUT_RGB_INVERSE_TRANSFER_FUNCTION.
  rewrite (transfer_function_upto_cut _ _ _ _ _ _ _ _ _ _ _ _ H Hv).
  rewrite bind_Ok_l.
  apply (inverse_transfer_function_upto_ecutf _ _ _ _ _ _ _ _ _ _ _ _ H). lra.
Qed.

(** On the logarithmic segment the round trip is exact, provided the
    encoded value lies above [ecutf] and the argument of the logarithm,
    which [math.pow] has to return, is within the binary64 range. *)
Lemma round_trip_log_segment (v : R) (firmware method : string) (EI : Z)
    (cut a b c d e f ecutf : Q) :
  lookup_coefficients firmware method EI = Ok (cut, a, b, c, d, e, f, ecutf) ->
  (v > Q2R cut)%R ->
  (Q2R c * log10 (Q2R a * v + Q2R b) + Q2R d > Q2R ecutf)%R ->
  (Q2R a * v + Q2R b <= DBL_MAX)%R ->
  round_trip v firmware method EI = Ok v.
Proof.
  intros H Hv Hy Hmax. unfold round_trip, ALEXA_WIDE_GAMUT_RGB_TRANSFER_FUNCTION,
    ALEXA_WIDE_GAMUT_RGB_INVERSE_TRANSFER_FUNCTION.
  rewrite (transfer_function_above_cut _ _ _ _ _ _ _ _ _ _ _ _ H Hv).
  rewrite bind_Ok_l.
  pose proof (lookup_well_formed _ _ _ _ H) as Hwf.
  apply well_formed_real in Hwf as (Ha & Hab & Hc & He).
  assert (Hexp :
    ((Q2R c * log10 (Q2R a * v + Q2R b) + Q2R d - Q2R d) / Q2R c)%R =
    log10 (Q2R a * v + Q2R b)) by (field; lra).
  assert (Hpow :
    Rpower 10 ((Q2R c * log10 (Q2R a * v + Q2R b) + Q2R d - Q2R d) / Q2R c) =
    (Q2R a * v + Q2R b)%R).
  { rewrite Hexp. apply Rpower_10_log10.
    apply (log_argument_positive (Q2R cut)); assumption. }
  rewrite (inverse_transfer_function_above_ecutf _ _ _ _ _ _ _ _ _ _ _ _ H Hy)
    by (rewrite Hpow; exact Hmax).
  rewrite Hpow. f_equal. field. lra.
Qed.

(** C3 (the code at a failing input): with method "Normalised Sensor
    Signal" and exposure index 800, whose [cut] is 0.003907, the round
    trip of 0.001 returns [(0.13131 + 0.564981) / 178.216873], which is
    more than 0.0029 away from 0.001. *)
Theorem round_trip_below_cut_is_lossy :
  exists r : R,
    round_trip 0.001 "SUP 3.x" "Normalised Sensor Signal" 800 = Ok r /\
    r = ((Q2R 0.13131 - Q2R (-0.564981)) / Q2R 178.216873)%R /\
    (r - 0.001 > 0.0029)%R.
Proof.
  eexists. split; [|split; [reflexivity|]].
  - apply (round_trip_upto_cut 0.001 "SUP 3.x" "Normalised Sensor Signal" 800
             0.003907 182.199144 (-0.622848) 0.247189 0.391007 178.216873
             (-0.564981) 0.13131).
    + vm_compute. reflexivity.
    + unfold Q2R. cbn. lra.
  - unfold Q2R. cbn. lra.
Qed.

(** ** Matrices *)

Lemma Qeq_bool_false (x y : Q) : Qeq_bool x y = false -> ~ (x == y)%Q.
Proof. intros H Heq. apply Qeq_bool_iff in Heq. congruence. Qed.

Ltac unfold_matrices :=
  cbv beta iota zeta delta
    [mat_mul mat_vec mat_red vec_red diagflat identity det
     mat_eqb mat_within mat_significant mat_all2 vec_all2].


(** It is a right inverse as well. *)
Lemma np_linalg_inv_right (M M' : mat33) :
  np_linalg_inv M = Some M' -> mat_eqb (mat_mul M M') identity = true.
Proof.
  destruct M as [[[[a b] c] [[d e] f]] [[g h] i]].
  unfold np_linalg_inv.
  destruct (Qeq_bool _ 0) eqn:HD; [discriminate|].
  apply Qeq_bool_false in HD. intros [= <-].
  revert HD. unfold_matrices. rewrite Qred_correct. intros HD.
  rewrite !andb_true_iff.
  repeat split; apply Qeq_bool_iff; rewrite !Qred_correct; field; exact HD.
Qed.




(** Applied to vectors, a matrix and the one [np_linalg_inv] returns undo
    each other. *)
Lemma np_linalg_inv_mat_vec (M M' : mat33) (v : vec3) :
  np_linalg_inv M = Some M' ->
  vec_eqb (mat_vec M' (mat_vec M v)) v = true /\
  vec_eqb (mat_vec M (mat_vec M' v)) v = true.
Proof.
  destruct M as [[[[a b] c] [[d e] f]] [[g h] i]].
  destruct v as [[x y] z].
  unfold np_linalg_inv.
  destruct (Qeq_bool _ 0) eqn:HD; [discriminate|].
  apply Qeq_bool_false in HD. intros [= <-].
  revert HD. unfold vec_eqb. unfold_matrices. rewrite Qred_correct. intros HD.
  rewrite !andb_true_iff.
  repeat split; apply Qeq_bool_iff; rewrite !Qred_correct; field; exact HD.
Qed.

(** The derived matrix sends RGB white [(1, 1, 1)] to the whitepoint at
    unit luminance. *)
Lemma normalised_primary_matrix_white (P : primaries) (W : xy) (M : mat33) :
  normalised_primary_matrix P W = Some M ->
  exists Wxyz,
    xy_to_XYZ W = Some Wxyz /\
    vec_eqb (mat_vec M (1, 1, 1)%Q) Wxyz = true /\
    Qeq_bool (snd (fst Wxyz)) 1 = true.
Proof.
  destruct P as [[[xr yr] [xg yg]] [xb yb]].
  unfold normalised_primary_matrix.
  destruct (xy_to_XYZ W) as [Wxyz|] eqn:HW; [|discriminate].
  cbn [mbind option_bind].
  destruct (np_linalg_inv _) as [Mi|] eqn:HMi; [|discriminate].
  cbn [mbind option_bind]. intros [= <-].
  exists Wxyz. split; [reflexivity|]. split.
  - pose proof (np_linalg_inv_mat_vec _ _ Wxyz HMi) as [_ Hr].
    destruct Wxyz as [[wx wy] wz].
    destruct Mi as [[[[a b] c] [[d e] f]] [[g h] i]].
    revert Hr. unfold vec_eqb. unfold_matrices.
    rewrite !andb_true_iff. intros [[H0 H1] H2].
    apply Qeq_bool_iff in H0, H1, H2. rewrite !Qred_correct in H0, H1, H2.
    repeat split; apply Qeq_bool_iff; rewrite !Qred_correct;
      (eapply Qeq_trans; [|first [exact H0 | exact H1 | exact H2]]); ring.
  - destruct W as [xw yw]. unfold xy_to_XYZ in HW.
    destruct (Qeq_bool yw 0); [discriminate|].
    injection HW as <-. reflexivity.
Qed.

(** ** The registered colourspaces *)

(** The derivations are reasoned about through their equations, not by
    unfolding them. *)
#[global] Opaque normalised_primary_matrix np_linalg_inv.

Ltac blackmagic_derived H :=
  match type of H with
  | _ = Some _ =>
      cbv beta delta
        [RGB_COLOURSPACE_BMD_FILM_V1 RGB_COLOURSPACE_BMD_4K_FILM_V1
         RGB_COLOURSPACE_BMD_4K_FILM_V3 RGB_COLOURSPACE_BMD_46K_FILM_V1
         RGB_COLOURSPACE_BMD_46K_FILM_V3 RGB_COLOURSPACE_BMD_WIDE_GAMUT_V4
         XYZ_TO_BMD_FILM_V1_MATRIX XYZ_TO_BMD_4K_FILM_V1_MATRIX
         XYZ_TO_BMD_4K_FILM_V3_MATRIX XYZ_TO_BMD_46K_FILM_V1_MATRIX
         XYZ_TO_BMD_46K_FILM_V3_MATRIX XYZ_TO_BMD_WIDE_GAMUT_V4_MATRIX
         BMD_FILM_V1_TO_XYZ_MATRIX BMD_4K_FILM_V1_TO_XYZ_MATRIX
         BMD_4K_FILM_V3_TO_XYZ_MATRIX BMD_46K_FILM_V1_TO_XYZ_MATRIX
         BMD_46K_FILM_V3_TO_XYZ_MATRIX BMD_WIDE_GAMUT_V4_TO_XYZ_MATRIX] in H;
      destruct (normalised_primary_matrix _ _) as [M|] eqn:HM;
        [|discriminate H];
      cbn [mbind option_bind] in H;
      destruct (np_linalg_inv M) as [Mi|] eqn:HMi; [|discriminate H];
      injection H as <-; split; [exact HM | exact HMi]
  end.

Lemma RGB_COLOURSPACE_BMD_FILM_V1_derived (cs : RGB_Colourspace) :
  RGB_COLOURSPACE_BMD_FILM_V1 = Some cs -> derived cs.
Proof. intros H. blackmagic_derived H. Qed.

Lemma RGB_COLOURSPACE_BMD_4K_FILM_V1_derived (cs : RGB_Colourspace) :
  RGB_COLOURSPACE_BMD_4K_FILM_V1 = Some cs -> derived cs.
Proof. intros H. blackmagic_derived H. Qed.

Lemma RGB_COLOURSPACE_BMD_4K_FILM_V3_derived (cs : RGB_Colourspace) :
  RGB_COLOURSPACE_BMD_4K_FILM_V3 = Some cs -> derived cs.
Proof. intros H. blackmagic_derived H. Qed.

Lemma RGB_COLOURSPACE_BMD_46K_FILM_V1_derived (D65 : xy) (cs : RGB_Colourspace) :
  RGB_COLOURSPACE_BMD_46K_FILM_V1 D65 = Some cs -> derived cs.
Proof. intros H. blackmagic_derived H. Qed.

Lemma RGB_COLOURSPACE_BMD_46K_FILM_V3_derived (D65 : xy) (cs : RGB_Colourspace) :
  RGB_COLOURSPACE_BMD_46K_FILM_V3 D65 = Some cs -> derived cs.
Proof. intros H. blackmagic_derived H. Qed.

Lemma RGB_COLOURSPACE_BMD_WIDE_GAMUT_V4_derived (D65 : xy) (cs : RGB_Colourspace) :
  RGB_COLOURSPACE_BMD_WIDE_GAMUT_V4 D65 = Some cs -> derived cs.
Proof. intros H. blackmagic_derived H. Qed.

(** The registry holds what the two files construct, nothing else. *)
Lemma registry_elem (D65 D65' : xy) (r : registered) :
  r ∈ registry D65 D65' <->
  (exists cs, r = Alexa cs /\ ALEXA_WIDE_GAMUT_RGB_COLOURSPACE D65 = Some cs) \/
  (exists cs, r = Blackmagic cs /\
     (RGB_COLOURSPACE_BMD_FILM_V1 = Some cs \/
      RGB_COLOURSPACE_BMD_4K_FILM_V1 = Some cs \/
      RGB_COLOURSPACE_BMD_4K_FILM_V3 = Some cs \/
      RGB_COLOURSPACE_BMD_46K_FILM_V1 D65' = Some cs \/
      RGB_COLOURSPACE_BMD_46K_FILM_V3 D65' = Some cs \/
      RGB_COLOURSPACE_BMD_WIDE_GAMUT_V4 D65' = Some cs)).
Proof.
  unfold registry. rewrite list_elem_of_omap.
  generalize (ALEXA_WIDE_GAMUT_RGB_COLOURSPACE D65)
    RGB_COLOURSPACE_BMD_FILM_V1 RGB_COLOURSPACE_BMD_4K_FILM_V1
    RGB_COLOURSPACE_BMD_4K_FILM_V3 (RGB_COLOURSPACE_BMD_46K_FILM_V1 D65')
    (RGB_COLOURSPACE_BMD_46K_FILM_V3 D65')
    (RGB_COLOURSPACE_BMD_WIDE_GAMUT_V4 D65').
  intros o0 o1 o2 o3 o4 o5 o6. split.
  - intros (o & Ho & Heq). subst o.
    repeat (apply elem_of_cons in Ho as [Ho|Ho]);
      try (apply elem_of_nil in Ho; contradiction);
      symmetry in Ho; apply fmap_Some in Ho as (cs & -> & ->); [left|right..];
      exists cs; (split; [reflexivity|]); tauto.
  - intros [(cs & -> & ->)|(cs & -> & H)].
    + exists (Some (Alexa cs)). split; [set_solver | reflexivity].
    + exists (Some (Blackmagic cs)). split; [|reflexivity].
      destruct H as [H|[H|[H|[H|[H|H]]]]]; rewrite H; cbn; set_solver.
Qed.

Lemma blackmagic_registered_derived (D65 D65' : xy) (cs : RGB_Colourspace) :
  Blackmagic cs ∈ registry D65 D65' -> derived cs.
Proof.
  rewrite registry_elem. intros [(? & [=] & _)|(cs' & [= <-] & H)].
  destruct H as [H|[H|[H|[H|[H|H]]]]].
  - exact (RGB_COLOURSPACE_BMD_FILM_V1_derived _ H).
  - exact (RGB_COLOURSPACE_BMD_4K_FILM_V1_derived _ H).
  - exact (RGB_COLOURSPACE_BMD_4K_FILM_V3_derived _ H).
  - exact (RGB_COLOURSPACE_BMD_46K_FILM_V1_derived _ _ H).
  - exact (RGB_COLOURSPACE_BMD_46K_FILM_V3_derived _ _ H).
  - exact (RGB_COLOURSPACE_BMD_WIDE_GAMUT_V4_derived _ _ H).
Qed.

(** The matrix of line 169 is not singular. *)
Lemma XYZ_TO_ALEXA_WIDE_GAMUT_RGB_MATRIX_defined :
  exists M, XYZ_TO_ALEXA_WIDE_GAMUT_RGB_MATRIX = Some M.
Proof. vm_compute. eexists. reflexivity. Qed.

Lemma alexa_colourspace_fields (D65 : xy) (cs : Colourspace) :
  ALEXA_WIDE_GAMUT_RGB_COLOURSPACE D65 = Some cs ->
  name cs = "ALEXA Wide Gamut RGB" /\
  cs_primaries cs = ALEXA_WIDE_GAMUT_RGB_PRIMARIES /\
  whitepoint cs = D65 /\
  to_XYZ cs = ALEXA_WIDE_GAMUT_RGB_TO_XYZ_MATRIX /\
  np_linalg_inv (to_XYZ cs) = Some (from_XYZ cs).
Proof.
  unfold ALEXA_WIDE_GAMUT_RGB_COLOURSPACE, XYZ_TO_ALEXA_WIDE_GAMUT_RGB_MATRIX.
  destruct (np_linalg_inv ALEXA_WIDE_GAMUT_RGB_TO_XYZ_MATRIX) as [Mi|] eqn:E;
    [|discriminate].
  cbn [mbind option_bind]. intros [= <-]. cbn [name cs_primaries whitepoint to_XYZ from_XYZ].
  repeat split. exact E.
Qed.

Lemma alexa_colourspace_defined (D65 : xy) :
  exists cs, ALEXA_WIDE_GAMUT_RGB_COLOURSPACE D65 = Some cs.
Proof.
  destruct XYZ_TO_ALEXA_WIDE_GAMUT_RGB_MATRIX_defined as [M HM].
  unfold ALEXA_WIDE_GAMUT_RGB_COLOURSPACE. rewrite HM.
  eexists. reflexivity.
Qed.

Lemma alexa_registered_fields (D65 D65' : xy) (cs : Colourspace) :
  Alexa cs ∈ registry D65 D65' ->
  ALEXA_WIDE_GAMUT_RGB_COLOURSPACE D65 = Some cs.
Proof.
  rewrite registry_elem. intros [(cs' & [= <-] & H)|(? & [=] & _)]. exact H.
Qed.

Lemma registered_inverse (D65 D65' : xy) (r : registered) :
  r ∈ registry D65 D65' ->
  np_linalg_inv (rgbToXyzMatrix r) = Some (xyzToRgbMatrix r).
Proof.
  destruct r as [cs|cs]; intros H.
  - apply alexa_registered_fields, alexa_colourspace_fields in H. apply H.
  - apply blackmagic_registered_derived in H. apply H.
Qed.



(** C8, as stated, fails for ALEXA Wide Gamut RGB: whatever the
    whitepoint, the matrix derived from the ALEXA primaries does not
    reproduce the matrix of line 169 to five significant digits (the
    first column cannot match in both its second and third rows). *)
Lemma alexa_matrix_not_reproduced :
  ~ exists (W : xy) (M : mat33),
      normalised_primary_matrix ALEXA_WIDE_GAMUT_RGB_PRIMARIES W = Some M /\
      mat_significant 5 M ALEXA_WIDE_GAMUT_RGB_TO_XYZ_MATRIX = true.
Proof.
  intros (W & M & HM & Hs).
  Transparent normalised_primary_matrix.
  unfold normalised_primary_matrix, ALEXA_WIDE_GAMUT_RGB_PRIMARIES in HM.
  Opaque normalised_primary_matrix.
  destruct (xy_to_XYZ W) as [Wxyz|]; [|discriminate HM].
  cbn [mbind option_bind] in HM.
  destruct (np_linalg_inv _) as [Mi|]; [|discriminate HM].
  cbn [mbind option_bind] in HM.
  destruct (mat_vec Mi Wxyz) as [[s0 s1] s2].
  injection HM as <-.
  revert Hs. unfold ALEXA_WIDE_GAMUT_RGB_TO_XYZ_MATRIX. unfold_matrices.
  rewrite !andb_true_iff.
  intros [[_ [[H10 _] _]] [[H20 _] _]].
  unfold significant in H10, H20.
  apply Qle_bool_iff in H10, H20.
  rewrite Qred_correct in H10, H20.
  change (inject_Z (10 ^ Z.of_nat 5)) with 100000%Q in H10, H20.
  change (Qabs 0.291954) with 0.291954%Q in H10.
  change (Qabs 0.002798) with 0.002798%Q in H20.
  revert H10 H20.
  apply Qabs_case; intros ?; apply Qabs_case; intros ? ? ?; Lqa.lra.
Qed.

(** With the CIE D65 whitepoint the derivation from the ALEXA primaries
    agrees with the matrix of line 169 to four significant digits, and
    within 5e-7 in every entry. *)
Lemma alexa_derivation_close :
  exists M,
    normalised_primary_matrix ALEXA_WIDE_GAMUT_RGB_PRIMARIES D65_standard = Some M /\
    mat_significant 4 M ALEXA_WIDE_GAMUT_RGB_TO_XYZ_MATRIX = true /\
    mat_within 0.0000005 M ALEXA_WIDE_GAMUT_RGB_TO_XYZ_MATRIX = true.
Proof. vm_compute. eexists. repeat split. Qed.

(** C8, amended: each Blackmagic colourspace has for RGB to XYZ matrix
    the one derived from its primaries and whitepoint; the ALEXA Wide
    Gamut RGB colourspace has the matrix written at line 169, which the
    derivation from its primaries reproduces, when the whitepoint is the
    CIE D65 chromaticity (0.3127, 0.3290), to four significant digits and
    within 5e-7 in every entry. *)
Theorem rgb_to_xyz_derivation (D65 D65' : xy) (r : registered) :
  r ∈ registry D65 D65' ->
  match r with
  | Blackmagic cs =>
      normalised_primary_matrix (rgb_primaries cs) (rgb_whitepoint cs) =
        Some (RGB_to_XYZ_matrix cs)
  | Alexa cs =>
      to_XYZ cs = ALEXA_WIDE_GAMUT_RGB_TO_XYZ_MATRIX /\
      (whitepoint cs = D65_standard ->
       exists M,
         normalised_primary_matrix (cs_primaries cs) (whitepoint cs) = Some M /\
         mat_significant 4 M (to_XYZ cs) = true /\
         mat_within 0.0000005 M (to_XYZ cs) = true)
  end.
Proof.
  destruct r as [cs|cs]; intros H.
  - apply alexa_registered_fields, alexa_colourspace_fields in H
      as (_ & -> & _ & -> & _).
    split; [reflexivity|]. intros ->. exact alexa_derivation_close.
  - apply blackmagic_registered_derived in H. apply H.
Qed.

Lemma rgb_to_xyz_derivation_witness :
  match ALEXA_WIDE_GAMUT_RGB_COLOURSPACE D65_standard with
  | Some cs =>
      to_XYZ cs = ALEXA_WIDE_GAMUT_RGB_TO_XYZ_MATRIX /\
      (whitepoint cs = D65_standard ->
       exists M,
         normalised_primary_matrix (cs_primaries cs) (whitepoint cs) = Some M /\
         mat_significant 4 M (to_XYZ cs) = true /\
         mat_within 0.0000005 M (to_XYZ cs) = true)
  | None => False
  end.
Proof.
  destruct (ALEXA_WIDE_GAMUT_RGB_COLOURSPACE D65_standard) as [cs|] eqn:E.
  - apply (rgb_to_xyz_derivation D65_standard D65_standard (Alexa cs)).
    apply registry_elem. left. exists cs. split; [reflexivity | exact E].
  - destruct (alexa_colourspace_defined D65_standard) as [cs H].
    rewrite H in E. discriminate E.
Defined.

Lemma find_omap_head {A} (p : A -> bool) (x : A) (l : list (option A)) :
  p x = true -> List.find p (omap (fun o => o) (Some x :: l)) = Some x.
Proof. intros H. cbn. rewrite H. reflexivity. Qed.

(** C9: looking up "ALEXA Wide Gamut RGB" returns a colourspace whose
    red primary, the first row of its primaries, is (0.6840, 0.3130). *)
Theorem get_alexa_red_primary (D65 D65' : xy) :
  exists r,
    get D65 D65' "ALEXA Wide Gamut RGB" = Some r /\
    red_primary (registered_primaries r) = (0.6840, 0.3130)%Q.
Proof.
  destruct (alexa_colourspace_defined D65) as [cs Hcs].
  pose proof (alexa_colourspace_fields _ _ Hcs) as (Hname & Hprim & _).
  exists (Alexa cs). split.
  - unfold get, registry. rewrite Hcs.
    change (Alexa <$> Some cs) with (Some (Alexa cs)).
    apply find_omap_head. cbn [registered_name]. rewrite Hname. reflexivity.
  - cbn [registered_primaries]. rewrite Hprim. reflexivity.
Qed.

(** ** Further properties of the transfer function pair *)

Lemma lookup_coefficients_raises (firmware method : string) (EI : Z) (e : exn) :
  lookup_coefficients firmware method EI = Raise e ->
  e = AttributeError \/ e = TypeError.
Proof.
  rewrite lookup_coefficients_cases.
  destruct (ALEXA_LOG_C_CURVE_CONVERSION_DATA !! firmware) as [ms|];
    [|intros [= <-]; tauto].
  destruct (ms !! method) as [eis|]; [|intros [= <-]; tauto].
  destruct (eis !! EI); [discriminate | intros [= <-]; tauto].
Qed.

(** X1: the forward function never raises [OverflowError], and apart from
    that range error of [math.pow] in the inverse function, both
    functions fail on the same configurations, with the same exception,
    whatever the values they are applied to. *)
Theorem transfer_functions_fail_alike (v w : R) (firmware method : string)
    (EI : Z) (e : exn) :
  ALEXA_WIDE_GAMUT_RGB_TRANSFER_FUNCTION v firmware method EI <>
    Raise OverflowError /\
  (e <> OverflowError ->
   (ALEXA_WIDE_GAMUT_RGB_TRANSFER_FUNCTION v firmware method EI = Raise e <->
    ALEXA_WIDE_GAMUT_RGB_INVERSE_TRANSFER_FUNCTION w firmware method EI = Raise e)).
Proof.
  destruct (lookup_coefficients firmware method EI) as [t|e'] eqn:Hl.
  - destruct (transfer_function_returns v _ _ _ _ Hl) as [y Hy].
    rewrite Hy. split; [discriminate|]. intros He.
    destruct t as [[[[[[[cut a] b] c] d] e0] f] ecutf].
    destruct (inverse_transfer_function_outcome w _ _ _ _ _ _ _ _ _ _ _ Hl)
      as [(_ & _ & Hx)|(_ & [x Hx])]; rewrite Hx.
    + split; [discriminate | congruence].
    + split; discriminate.
  - destruct (transfer_function_not_found v _ _ _ _ Hl) as [Hy _].
    destruct (transfer_function_not_found w _ _ _ _ Hl) as [_ Hx].
    unfold ALEXA_WIDE_GAMUT_RGB_TRANSFER_FUNCTION,
      ALEXA_WIDE_GAMUT_RGB_INVERSE_TRANSFER_FUNCTION.
    rewrite Hy, Hx. split; [|reflexivity].
    apply lookup_coefficients_raises in Hl as [->| ->]; discriminate.
Qed.

Lemma transfer_functions_fail_alike_witness :
  ALEXA_WIDE_GAMUT_RGB_TRANSFER_FUNCTION 0.18
    "SUP 2.x" "Linear Scene Exposure Factor" 800 = Raise AttributeError <->
  ALEXA_WIDE_GAMUT_RGB_INVERSE_TRANSFER_FUNCTION 100
    "SUP 2.x" "Linear Scene Exposure Factor" 800 = Raise AttributeError.
Proof.
  apply (transfer_functions_fail_alike 0.18 100 "SUP 2.x"
           "Linear Scene Exposure Factor" 800 AttributeError).
  discriminate.
Defined.

Lemma supported_configurations_eq :
  supported_configurations =
  (firmware ← ["SUP 3.x"];
   method ← ["Normalised Sensor Signal"; "Linear Scene Exposure Factor"];
   EI ← [250; 500; 1000; 200; 400; 800; 160; 1600; 320; 640; 1280]%Z;
   [(firmware, method, EI)]).
Proof. vm_compute. reflexivity. Qed.

Lemma lookup_supported (firmware method : string) (EI : Z) :
  (exists t, lookup_coefficients firmware method EI = Ok t) <->
  (firmware, method, EI) ∈ supported_configurations.
Proof.
  unfold supported_configurations. rewrite list_elem_of_fmap. split.
  - intros [t H]. apply lookup_coefficients_entries in H.
    exists (firmware, method, EI, t). split; [reflexivity | exact H].
  - intros ([[[fw m] ei] t] & [= -> -> ->] & H).
    exists t. apply lookup_coefficients_entries, H.
Qed.

Ltac list_membership :=
  repeat rewrite elem_of_cons in *; repeat rewrite elem_of_nil in *;
  intuition congruence.

(** X2: the forward function returns a value exactly for firmware "SUP 3.x",
    either of the two methods, and one of eleven exposure indices. *)
Theorem transfer_function_domain (v : R) (firmware method : string) (EI : Z) :
  returns (ALEXA_WIDE_GAMUT_RGB_TRANSFER_FUNCTION v firmware method EI) <->
  firmware = "SUP 3.x" /\
  method ∈ ["Linear Scene Exposure Factor"; "Normalised Sensor Signal"] /\
  EI ∈ [160; 200; 250; 320; 400; 500; 640; 800; 1000; 1280; 1600]%Z.
Proof.
  transitivity ((firmware, method, EI) ∈ supported_configurations).
  - rewrite <- lookup_supported. split.
    + intros [y Hy].
      destruct (lookup_coefficients firmware method EI) as [t|e] eqn:Hl;
        [eauto|].
      destruct (transfer_function_not_found v _ _ _ _ Hl) as [Hr _].
      unfold ALEXA_WIDE_GAMUT_RGB_TRANSFER_FUNCTION in Hy.
      rewrite Hr in Hy. discriminate.
    + intros [t Hl]. exact (transfer_function_returns v _ _ _ _ Hl).
  - rewrite supported_configurations_eq.
    rewrite list_elem_of_bind. split.
    + intros (fw & H & Hfw). apply list_elem_of_singleton in Hfw as ->.
      apply list_elem_of_bind in H as (m & H & Hm).
      apply list_elem_of_bind in H as (ei & H & Hei).
      apply list_elem_of_singleton in H as [= -> -> ->].
      split; [reflexivity|]. split; [clear Hei | clear Hm]; list_membership.
    + intros (-> & Hm & Hei). exists "SUP 3.x".
      split; [|apply list_elem_of_singleton; reflexivity].
      apply list_elem_of_bind. exists method.
      split; [|clear Hei; list_membership].
      apply list_elem_of_bind. exists EI.
      split; [apply list_elem_of_singleton; reflexivity|].
      clear Hm; list_membership.
Qed.

Lemma table_invertible_from_5_thousandths :
  forallb (fun e => invertible_from 0.005 e.2)
          (table_entries ALEXA_LOG_C_CURVE_CONVERSION_DATA) = true.
Proof. vm_compute. reflexivity. Qed.

Lemma table_decade_separates :
  forallb (fun e => decade_separates e.2)
          (table_entries ALEXA_LOG_C_CURVE_CONVERSION_DATA) = true.
Proof. vm_compute. reflexivity. Qed.

Lemma Qle_bool_Rle (x y : Q) : Qle_bool x y = true -> (Q2R x <= Q2R y)%R.
Proof. intros H. apply Qle_Rle, Qle_bool_iff, H. Qed.

Lemma Q2R_tenth : Q2R 0.1 = (/ 10)%R.
Proof. unfold Q2R. cbn. lra. Qed.

Lemma table_in_range_upto_1e300 :
  forallb (fun e => in_range_upto (inject_Z (10 ^ 300)) e.2)
          (table_entries ALEXA_LOG_C_CURVE_CONVERSION_DATA) = true.
Proof. vm_compute. reflexivity. Qed.

Lemma Q2R_inject_Z (z : Z) : Q2R (inject_Z z) = IZR z.
Proof. unfold Q2R. cbn. rewrite Rinv_1, Rmult_1_r. reflexivity. Qed.

(** X3: from 0.005 up to 1e300, for every configuration of the table,
    decoding the encoded value returns the value itself.  (Beyond, the
    argument of the logarithm leaves the binary64 range.) *)
Theorem round_trip_exact_from_5_thousandths (v : R) (firmware method : string)
    (EI : Z) (t : coefficients) :
  lookup_coefficients firmware method EI = Ok t ->
  (0.005 <= v <= 10 ^ 300)%R ->
  round_trip v firmware method EI = Ok v.
Proof.
  intros H [Hv Hv'].
  pose proof (lookup_well_formed _ _ _ _ H) as Hwf.
  pose proof H as Hinv. apply lookup_coefficients_entries in Hinv.
  pose proof Hinv as Hmax.
  apply (forallb_elem_of (fun e => invertible_from 0.005 e.2) _ _
           table_invertible_from_5_thousandths) in Hinv.
  apply (forallb_elem_of (fun e => in_range_upto (inject_Z (10 ^ 300)) e.2) _ _
           table_in_range_upto_1e300) in Hmax.
  destruct t as [[[[[[[cut a] b] c] d] e] f] ecutf].
  apply well_formed_real in Hwf as (Ha & Hab & Hc & He).
  cbn [snd] in Hinv, Hmax. unfold invertible_from in Hinv.
  unfold in_range_upto in Hmax.
  rewrite !andb_true_iff in Hinv. destruct Hinv as [[Hcut Harg] Hsep].
  apply Qltb_Rlt in Hcut, Hsep. apply Qle_bool_Rle in Harg, Hmax.
  rewrite Q2R_plus, Q2R_mult, Q2R_tenth in Harg.
  rewrite Q2R_plus, Q2R_mult, !Q2R_inject_Z in Hmax.
  change (IZR (10 ^ 300)) with (IZR (10 ^ Z.of_nat 300)) in Hmax.
  rewrite <- pow_IZR in Hmax. fold DBL_MAX in Hmax.
  rewrite Q2R_plus in Hsep.
  apply (round_trip_log_segment v _ _ _ _ _ _ _ _ _ _ _ H); [lra| |nra].
  assert (Hlog : (-1 <= log10 (Q2R a * v + Q2R b))%R).
  { apply log10_ge_minus_1. nra. }
  nra.
Qed.

Lemma round_trip_exact_from_5_thousandths_witness :
  round_trip 0.18 "SUP 3.x" "Normalised Sensor Signal" 800 = Ok 0.18%R.
Proof.
  apply (round_trip_exact_from_5_thousandths 0.18 "SUP 3.x"
           "Normalised Sensor Signal" 800
           (0.003907, 182.199144, -0.622848, 0.247189, 0.391007, 178.216873,
            -0.564981, 0.13131)%Q).
  - vm_compute. reflexivity.
  - split; [lra|].
    apply Rle_trans with 1%R; [lra|]. apply pow_R1_Rle. lra.
Defined.

(** X4: up to the crossover the forward function is constant: any two values
    at or below [cut] are encoded alike and decoded to the same value. *)
Theorem round_trip_collapses_upto_cut (v w : R) (firmware method : string)
    (EI : Z) (cut a b c d e f ecutf : Q) :
  lookup_coefficients firmware method EI = Ok (cut, a, b, c, d, e, f, ecutf) ->
  (v <= Q2R cut)%R -> (w <= Q2R cut)%R ->
  ALEXA_WIDE_GAMUT_RGB_TRANSFER_FUNCTION v firmware method EI =
    ALEXA_WIDE_GAMUT_RGB_TRANSFER_FUNCTION w firmware method EI /\
  round_trip v firmware method EI = Ok ((Q2R ecutf - Q2R f) / Q2R e)%R /\
  round_trip w firmware method EI = Ok ((Q2R ecutf - Q2R f) / Q2R e)%R.
Proof.
  intros H Hv Hw. unfold ALEXA_WIDE_GAMUT_RGB_TRANSFER_FUNCTION.
  rewrite (transfer_function_upto_cut _ _ _ _ _ _ _ _ _ _ _ _ H Hv).
  rewrite (transfer_function_upto_cut _ _ _ _ _ _ _ _ _ _ _ _ H Hw).
  split; [reflexivity|].
  split; apply (round_trip_upto_cut _ _ _ _ _ _ _ _ _ _ _ _ H); assumption.
Qed.

Lemma round_trip_collapses_upto_cut_witness :
  round_trip 0 "SUP 3.x" "Normalised Sensor Signal" 800 =
    Ok ((Q2R 0.13131 - Q2R (-0.564981)) / Q2R 178.216873)%R /\
  round_trip 0.001 "SUP 3.x" "Normalised Sensor Signal" 800 =
    Ok ((Q2R 0.13131 - Q2R (-0.564981)) / Q2R 178.216873)%R.
Proof.
  apply (round_trip_collapses_upto_cut 0 0.001 "SUP 3.x"
           "Normalised Sensor Signal" 800
           0.003907 182.199144 (-0.622848) 0.247189 0.391007 178.216873
           (-0.564981) 0.13131).
  - vm_compute. reflexivity.
  - unfold Q2R. cbn. lra.
  - unfold Q2R. cbn. lra.
Defined.

Lemma Rpower_10_ge_tenth (t : R) : (-1 <= t)%R -> (/ 10 <= Rpower 10 t)%R.
Proof.
  intros Ht.
  replace (/ 10)%R with (Rpower 10 (-1)).
  - apply Rle_Rpower; lra.
  - replace (-1)%R with (- (1))%R by lra.
    rewrite Rpower_Ropp, Rpower_1 by lra. reflexivity.
Qed.

(** X5: in the other direction: a companded value [y] with
    [-1 <= (y - d) / c <= 308] is decoded to a value the forward function
    encodes back to [y] exactly. *)
Theorem encode_decode_exact (y : R) (firmware method : string) (EI : Z)
    (cut a b c d e f ecutf : Q) :
  lookup_coefficients firmware method EI = Ok (cut, a, b, c, d, e, f, ecutf) ->
  (Q2R d - Q2R c <= y <= Q2R d + 308 * Q2R c)%R ->
  exists x : R,
    ALEXA_WIDE_GAMUT_RGB_INVERSE_TRANSFER_FUNCTION y firmware method EI = Ok x /\
    ALEXA_WIDE_GAMUT_RGB_TRANSFER_FUNCTION x firmware method EI = Ok y.
Proof.
  intros H [Hy Hy'].
  pose proof (lookup_well_formed _ _ _ _ H) as Hwf.
  pose proof H as Hsep. apply lookup_coefficients_entries in Hsep.
  apply (forallb_elem_of (fun e => decade_separates e.2) _ _
           table_decade_separates) in Hsep.
  apply well_formed_real in Hwf as (Ha & Hab & Hc & He).
  cbn [snd] in Hsep. unfold decade_separates in Hsep.
  rewrite andb_true_iff in Hsep. destruct Hsep as [Hcut Hsep].
  apply Qltb_Rlt in Hcut, Hsep.
  rewrite Q2R_plus, Q2R_mult, Q2R_tenth in Hcut. rewrite Q2R_plus in Hsep.
  unfold ALEXA_WIDE_GAMUT_RGB_TRANSFER_FUNCTION,
    ALEXA_WIDE_GAMUT_RGB_INVERSE_TRANSFER_FUNCTION.
  set (t := ((y - Q2R d) / Q2R c)%R).
  assert (Ht : (-1 <= t <= 308)%R).
  { unfold t. split.
    - apply (Rmult_le_reg_r (Q2R c)); [exact Hc|].
      replace ((y - Q2R d) / Q2R c * Q2R c)%R with (y - Q2R d)%R by (field; lra).
      lra.
    - apply (Rmult_le_reg_r (Q2R c)); [exact Hc|].
      replace ((y - Q2R d) / Q2R c * Q2R c)%R with (y - Q2R d)%R by (field; lra).
      lra. }
  eexists. split.
  { apply (inverse_transfer_function_above_ecutf _ _ _ _ _ _ _ _ _ _ _ _ H);
      [lra|]. apply Rpower_10_le_DBL_MAX, Ht. }
  fold t.
  pose proof (Rpower_10_ge_tenth t (proj1 Ht)) as Hp.
  assert (Harg : (Q2R a * ((Rpower 10 t - Q2R b) / Q2R a) + Q2R b = Rpower 10 t)%R)
    by (field; lra).
  rewrite (transfer_function_above_cut _ _ _ _ _ _ _ _ _ _ _ _ H).
  - rewrite Harg, log10_Rpower_10. f_equal. unfold t. field. lra.
  - apply Rmult_lt_reg_l with (r := Q2R a); [exact Ha|].
    apply Rplus_lt_reg_r with (r := Q2R b). rewrite Harg. lra.
Qed.

Lemma encode_decode_exact_witness :
  exists x : R,
    ALEXA_WIDE_GAMUT_RGB_INVERSE_TRANSFER_FUNCTION 0.5
      "SUP 3.x" "Linear Scene Exposure Factor" 800 = Ok x /\
    ALEXA_WIDE_GAMUT_RGB_TRANSFER_FUNCTION x
      "SUP 3.x" "Linear Scene Exposure Factor" 800 = Ok 0.5%R.
Proof.
  apply (encode_decode_exact 0.5 "SUP 3.x" "Linear Scene Exposure Factor" 800
           0.000000 5.061087 0.089004 0.247189 0.391007 4.950469
           0.131313 0.131313).
  - vm_compute. reflexivity.
  - unfold Q2R. cbn. lra.
Defined.

Lemma log10_increasing (x y : R) : (0 < x < y)%R -> (log10 x < log10 y)%R.
Proof.
  intros [Hx Hxy]. unfold log10. pose proof ln_10_pos as H10.
  apply Rmult_lt_compat_r; [apply Rinv_0_lt_compat, H10|].
  apply ln_increasing; assumption.
Qed.

(** X6: above the crossover the forward function is strictly increasing. *)
Theorem transfer_function_increasing (v w : R) (firmware method : string)
    (EI : Z) (cut a b c d e f ecutf : Q) :
  lookup_coefficients firmware method EI = Ok (cut, a, b, c, d, e, f, ecutf) ->
  (Q2R cut < v)%R -> (v < w)%R ->
  exists y z : R,
    ALEXA_WIDE_GAMUT_RGB_TRANSFER_FUNCTION v firmware method EI = Ok y /\
    ALEXA_WIDE_GAMUT_RGB_TRANSFER_FUNCTION w firmware method EI = Ok z /\
    (y < z)%R.
Proof.
  intros H Hv Hvw.
  pose proof (lookup_well_formed _ _ _ _ H) as Hwf.
  apply well_formed_real in Hwf as (Ha & Hab & Hc & He).
  unfold ALEXA_WIDE_GAMUT_RGB_TRANSFER_FUNCTION.
  do 2 eexists. split; [|split].
  - apply (transfer_function_above_cut _ _ _ _ _ _ _ _ _ _ _ _ H). lra.
  - apply (transfer_function_above_cut _ _ _ _ _ _ _ _ _ _ _ _ H). lra.
  - assert (Hlog : (log10 (Q2R a * v + Q2R b) < log10 (Q2R a * w + Q2R b))%R).
    { apply log10_increasing. split; nra. }
    nra.
Qed.

Lemma transfer_function_increasing_witness :
  exists y z : R,
    ALEXA_WIDE_GAMUT_RGB_TRANSFER_FUNCTION 0.18
      "SUP 3.x" "Linear Scene Exposure Factor" 800 = Ok y /\
    ALEXA_WIDE_GAMUT_RGB_TRANSFER_FUNCTION 1
      "SUP 3.x" "Linear Scene Exposure Factor" 800 = Ok z /\
    (y < z)%R.
Proof.
  apply (transfer_function_increasing 0.18 1 "SUP 3.x"
           "Linear Scene Exposure Factor" 800
           0.000000 5.061087 0.089004 0.247189 0.391007 4.950469
           0.131313 0.131313).
  - vm_compute. reflexivity.
  - unfold Q2R. cbn. lra.
  - lra.
Defined.

(** X7: the inverse function is strictly increasing on each of its two
    segments: up to [ecutf], and above [ecutf] as far as [d + 308 * c],
    where [math.pow] is within the binary64 range. *)
Theorem inverse_transfer_function_increasing (v w : R) (firmware method : string)
    (EI : Z) (cut a b c d e f ecutf : Q) :
  lookup_coefficients firmware method EI = Ok (cut, a, b, c, d, e, f, ecutf) ->
  (v < w)%R ->
  (w <= Q2R ecutf \/ (Q2R ecutf < v /\ w <= Q2R d + 308 * Q2R c))%R ->
  exists x y : R,
    ALEXA_WIDE_GAMUT_RGB_INVERSE_TRANSFER_FUNCTION v firmware method EI = Ok x /\
    ALEXA_WIDE_GAMUT_RGB_INVERSE_TRANSFER_FUNCTION w firmware method EI = Ok y /\
    (x < y)%R.
Proof.
  intros H Hvw Hseg.
  pose proof (lookup_well_formed _ _ _ _ H) as Hwf.
  apply well_formed_real in Hwf as (Ha & Hab & Hc & He).
  unfold ALEXA_WIDE_GAMUT_RGB_INVERSE_TRANSFER_FUNCTION.
  assert (Hexp : forall u, (u <= Q2R d + 308 * Q2R c)%R ->
                           (Rpower 10 ((u - Q2R d) / Q2R c) <= DBL_MAX)%R).
  { intros u Hu. apply Rpower_10_le_DBL_MAX.
    apply (Rmult_le_reg_r (Q2R c)); [exact Hc|].
    replace ((u - Q2R d) / Q2R c * Q2R c)%R with (u - Q2R d)%R by (field; lra).
    lra. }
  destruct Hseg as [Hw|[Hv Hw]]; do 2 eexists; (split; [|split]).
  - apply (inverse_transfer_function_upto_ecutf _ _ _ _ _ _ _ _ _ _ _ _ H). lra.
  - apply (inverse_transfer_function_upto_ecutf _ _ _ _ _ _ _ _ _ _ _ _ H). lra.
  - apply Rmult_lt_compat_r; [apply Rinv_0_lt_compat, He | lra].
  - apply (inverse_transfer_function_above_ecutf _ _ _ _ _ _ _ _ _ _ _ _ H);
      [lra | apply Hexp; lra].
  - apply (inverse_transfer_function_above_ecutf _ _ _ _ _ _ _ _ _ _ _ _ H);
      [lra | apply Hexp; lra].
  - apply Rmult_lt_compat_r; [apply Rinv_0_lt_compat, Ha|].
    apply Rplus_lt_compat_r.
    apply Rpower_lt; [lra|].
    apply Rmult_lt_compat_r; [apply Rinv_0_lt_compat, Hc | lra].
Qed.

Lemma inverse_transfer_function_increasing_witness :
  exists x y : R,
    ALEXA_WIDE_GAMUT_RGB_INVERSE_TRANSFER_FUNCTION 0.4
      "SUP 3.x" "Linear Scene Exposure Factor" 800 = Ok x /\
    ALEXA_WIDE_GAMUT_RGB_INVERSE_TRANSFER_FUNCTION 0.5
      "SUP 3.x" "Linear Scene Exposure Factor" 800 = Ok y /\
    (x < y)%R.
Proof.
  apply (inverse_transfer_function_increasing 0.4 0.5 "SUP 3.x"
           "Linear Scene Exposure Factor" 800
           0.000000 5.061087 0.089004 0.247189 0.391007 4.950469
           0.131313 0.131313).
  - vm_compute. reflexivity.
  - lra.
  - right. unfold Q2R. cbn. lra.
Defined.

(** ** Further properties of the registered colourspaces *)

Ltac blackmagic_constructed H :=
  cbv beta delta
    [RGB_COLOURSPACE_BMD_FILM_V1 RGB_COLOURSPACE_BMD_4K_FILM_V1
     RGB_COLOURSPACE_BMD_4K_FILM_V3 RGB_COLOURSPACE_BMD_46K_FILM_V1
     RGB_COLOURSPACE_BMD_46K_FILM_V3 RGB_COLOURSPACE_BMD_WIDE_GAMUT_V4
     XYZ_TO_BMD_FILM_V1_MATRIX XYZ_TO_BMD_4K_FILM_V1_MATRIX
     XYZ_TO_BMD_4K_FILM_V3_MATRIX XYZ_TO_BMD_46K_FILM_V1_MATRIX
     XYZ_TO_BMD_46K_FILM_V3_MATRIX XYZ_TO_BMD_WIDE_GAMUT_V4_MATRIX
     BMD_FILM_V1_TO_XYZ_MATRIX BMD_4K_FILM_V1_TO_XYZ_MATRIX
     BMD_4K_FILM_V3_TO_XYZ_MATRIX BMD_46K_FILM_V1_TO_XYZ_MATRIX
     BMD_46K_FILM_V3_TO_XYZ_MATRIX BMD_WIDE_GAMUT_V4_TO_XYZ_MATRIX] in H;
  destruct (normalised_primary_matrix _ _) as [M|] eqn:HM; [|discriminate H];
  cbn [mbind option_bind] in H;
  destruct (np_linalg_inv M) as [Mi|] eqn:HMi; [|discriminate H];
  injection H as <-; exists M, Mi;
  split; [exact HM | split; [exact HMi | reflexivity]].

(** The six constructor calls of [blackmagic.py]. *)
Lemma RGB_COLOURSPACE_BMD_FILM_V1_constructed (cs : RGB_Colourspace) :
  RGB_COLOURSPACE_BMD_FILM_V1 = Some cs ->
  constructed "BMD Film V1" BMD_FILM_V1_PRIMARIES BMD_FILM_V1_WHITEPOINT
    "BMD White" log_encoding_BMDFilm log_decoding_BMDFilm cs.
Proof. intros H. blackmagic_constructed H. Qed.

Lemma RGB_COLOURSPACE_BMD_4K_FILM_V1_constructed (cs : RGB_Colourspace) :
  RGB_COLOURSPACE_BMD_4K_FILM_V1 = Some cs ->
  constructed "BMD 4K Film V1" BMD_4K_FILM_V1_PRIMARIES BMD_4K_FILM_V1_WHITEPOINT
    "BMD White" log_encoding_BMD4KFilm log_decoding_BMD4KFilm cs.
Proof. intros H. blackmagic_constructed H. Qed.

Lemma RGB_COLOURSPACE_BMD_4K_FILM_V3_constructed (cs : RGB_Colourspace) :
  RGB_COLOURSPACE_BMD_4K_FILM_V3 = Some cs ->
  constructed "BMD 4K Film V3" BMD_4K_FILM_V3_PRIMARIES BMD_4K_FILM_V3_WHITEPOINT
    "BMD White" log_encoding_BMD4KFilm log_decoding_BMD4KFilm cs.
Proof. intros H. blackmagic_constructed H. Qed.

Lemma RGB_COLOURSPACE_BMD_46K_FILM_V1_constructed (D65 : xy) (cs : RGB_Colourspace) :
  RGB_COLOURSPACE_BMD_46K_FILM_V1 D65 = Some cs ->
  constructed "BMD 46K Film V1" BMD_46K_FILM_V1_PRIMARIES D65
    "D65" log_encoding_BMD46KFilm log_decoding_BMD46KFilm cs.
Proof. intros H. blackmagic_constructed H. Qed.

Lemma RGB_COLOURSPACE_BMD_46K_FILM_V3_constructed (D65 : xy) (cs : RGB_Colourspace) :
  RGB_COLOURSPACE_BMD_46K_FILM_V3 D65 = Some cs ->
  constructed "BMD 46K Film V3" BMD_46K_FILM_V3_PRIMARIES D65
    "D65" log_encoding_BMD46KFilm log_decoding_BMD46KFilm cs.
Proof. intros H. blackmagic_constructed H. Qed.

Lemma RGB_COLOURSPACE_BMD_WIDE_GAMUT_V4_constructed (D65 : xy) (cs : RGB_Colourspace) :
  RGB_COLOURSPACE_BMD_WIDE_GAMUT_V4 D65 = Some cs ->
  constructed "BMD Wide Gamut V4" BMD_WIDE_GAMUT_V4_PRIMARIES D65
    "D65" log_encoding_BMDPocket4KFilmV4 log_decoding_BMDPocket4KFilmV4 cs.
Proof. intros H. blackmagic_constructed H. Qed.

Lemma blackmagic_registered_constructed (D65 D65' : xy) (cs : RGB_Colourspace) :
  Blackmagic cs ∈ registry D65 D65' ->
  constructed "BMD Film V1" BMD_FILM_V1_PRIMARIES BMD_FILM_V1_WHITEPOINT
    "BMD White" log_encoding_BMDFilm log_decoding_BMDFilm cs \/
  constructed "BMD 4K Film V1" BMD_4K_FILM_V1_PRIMARIES BMD_4K_FILM_V1_WHITEPOINT
    "BMD White" log_encoding_BMD4KFilm log_decoding_BMD4KFilm cs \/
  constructed "BMD 4K Film V3" BMD_4K_FILM_V3_PRIMARIES BMD_4K_FILM_V3_WHITEPOINT
    "BMD White" log_encoding_BMD4KFilm log_decoding_BMD4KFilm cs \/
  constructed "BMD 46K Film V1" BMD_46K_FILM_V1_PRIMARIES D65'
    "D65" log_encoding_BMD46KFilm log_decoding_BMD46KFilm cs \/
  constructed "BMD 46K Film V3" BMD_46K_FILM_V3_PRIMARIES D65'
    "D65" log_encoding_BMD46KFilm log_decoding_BMD46KFilm cs \/
  constructed "BMD Wide Gamut V4" BMD_WIDE_GAMUT_V4_PRIMARIES D65'
    "D65" log_encoding_BMDPocket4KFilmV4 log_decoding_BMDPocket4KFilmV4 cs.
Proof.
  rewrite registry_elem. intros [(? & [=] & _)|(cs' & [= <-] & H)].
  destruct H as [H|[H|[H|[H|[H|H]]]]].
  - left. exact (RGB_COLOURSPACE_BMD_FILM_V1_constructed _ H).
  - right; left. exact (RGB_COLOURSPACE_BMD_4K_FILM_V1_constructed _ H).
  - do 2 right; left. exact (RGB_COLOURSPACE_BMD_4K_FILM_V3_constructed _ H).
  - do 3 right; left. exact (RGB_COLOURSPACE_BMD_46K_FILM_V1_constructed _ _ H).
  - do 4 right; left. exact (RGB_COLOURSPACE_BMD_46K_FILM_V3_constructed _ _ H).
  - do 5 right. exact (RGB_COLOURSPACE_BMD_WIDE_GAMUT_V4_constructed _ _ H).
Qed.

(** X8: converting a vector from RGB to XYZ and back, or from XYZ to RGB and
    back, returns the vector, for every registered colourspace. *)
Theorem rgb_xyz_round_trip (D65 D65' : xy) (r : registered) (v : vec3) :
  r ∈ registry D65 D65' ->
  vec_eqb (mat_vec (xyzToRgbMatrix r) (mat_vec (rgbToXyzMatrix r) v)) v = true /\
  vec_eqb (mat_vec (rgbToXyzMatrix r) (mat_vec (xyzToRgbMatrix r) v)) v = true.
Proof.
  intros H. apply np_linalg_inv_mat_vec.
  exact (registered_inverse _ _ _ H).
Qed.

Lemma rgb_xyz_round_trip_witness :
  match RGB_COLOURSPACE_BMD_FILM_V1 with
  | Some cs =>
      vec_eqb (mat_vec (XYZ_to_RGB_matrix cs)
                 (mat_vec (RGB_to_XYZ_matrix cs) (0.18, 0.18, 0.18)%Q))
        (0.18, 0.18, 0.18)%Q = true /\
      vec_eqb (mat_vec (RGB_to_XYZ_matrix cs)
                 (mat_vec (XYZ_to_RGB_matrix cs) (0.18, 0.18, 0.18)%Q))
        (0.18, 0.18, 0.18)%Q = true
  | None => False
  end.
Proof.
  destruct RGB_COLOURSPACE_BMD_FILM_V1 as [cs|] eqn:E.
  - apply (rgb_xyz_round_trip D65_standard D65_standard (Blackmagic cs)).
    apply registry_elem. right. exists cs. split; [reflexivity|]. tauto.
  - vm_compute in E. discriminate E.
Defined.

(** X9: RGB white [(1, 1, 1)] has luminance [Y = 1] in every registered
    colourspace; in a Blackmagic colourspace it is the whitepoint. *)
Theorem white_has_unit_luminance (D65 D65' : xy) (r : registered) :
  r ∈ registry D65 D65' ->
  Qeq_bool (snd (fst (mat_vec (rgbToXyzMatrix r) (1, 1, 1)%Q))) 1 = true /\
  match r with
  | Alexa _ => True
  | Blackmagic cs =>
      exists Wxyz,
        xy_to_XYZ (rgb_whitepoint cs) = Some Wxyz /\
        vec_eqb (mat_vec (RGB_to_XYZ_matrix cs) (1, 1, 1)%Q) Wxyz = true
  end.
Proof.
  destruct r as [cs|cs]; intros H.
  - apply alexa_registered_fields, alexa_colourspace_fields in H
      as (_ & _ & _ & Hto & _).
    cbn [rgbToXyzMatrix]. rewrite Hto. split; [|exact I].
    vm_compute. reflexivity.
  - apply blackmagic_registered_derived in H as [HM _].
    apply normalised_primary_matrix_white in HM as (Wxyz & HW & Hv & HY).
    cbn [rgbToXyzMatrix]. split; [|eauto].
    destruct (mat_vec (RGB_to_XYZ_matrix cs) (1, 1, 1)%Q) as [[X Y] Z].
    destruct Wxyz as [[wx wy] wz].
    unfold vec_eqb, vec_all2 in Hv. rewrite !andb_true_iff in Hv.
    destruct Hv as [[_ Hy] _]. cbn [fst snd] in *.
    apply Qeq_bool_iff in Hy, HY. apply Qeq_bool_iff.
    rewrite Hy. exact HY.
Qed.

Lemma white_has_unit_luminance_witness :
  match RGB_COLOURSPACE_BMD_WIDE_GAMUT_V4 D65_standard with
  | Some cs =>
      Qeq_bool (snd (fst (mat_vec (RGB_to_XYZ_matrix cs) (1, 1, 1)%Q))) 1 = true
  | None => False
  end.
Proof.
  destruct (RGB_COLOURSPACE_BMD_WIDE_GAMUT_V4 D65_standard) as [cs|] eqn:E.
  - apply (white_has_unit_luminance D65_standard D65_standard (Blackmagic cs)).
    apply registry_elem. right. exists cs. split; [reflexivity|]. tauto.
  - vm_compute in E. discriminate E.
Defined.

(** X10: every Blackmagic colourspace pairs an encoding function with its own
    decoding function; none is bound to the Pocket 6K pair, which the
    file imports. *)
Theorem blackmagic_cctf_paired (D65 D65' : xy) (cs : RGB_Colourspace) :
  Blackmagic cs ∈ registry D65 D65' ->
  (cctf_encoding cs, cctf_decoding cs) ∈
    [(log_encoding_BMDFilm, log_decoding_BMDFilm);
     (log_encoding_BMD4KFilm, log_decoding_BMD4KFilm);
     (log_encoding_BMD46KFilm, log_decoding_BMD46KFilm);
     (log_encoding_BMDPocket4KFilmV4, log_decoding_BMDPocket4KFilmV4)].
Proof.
  intros H. apply blackmagic_registered_constructed in H.
  destruct H as [H|[H|[H|[H|[H|H]]]]];
    destruct H as (M & Mi & _ & _ & ->); cbn [cctf_encoding cctf_decoding];
    list_membership.
Qed.

Lemma blackmagic_cctf_paired_witness :
  match RGB_COLOURSPACE_BMD_WIDE_GAMUT_V4 D65_standard with
  | Some cs =>
      (cctf_encoding cs, cctf_decoding cs) ∈
        [(log_encoding_BMDFilm, log_decoding_BMDFilm);
         (log_encoding_BMD4KFilm, log_decoding_BMD4KFilm);
         (log_encoding_BMD46KFilm, log_decoding_BMD46KFilm);
         (log_encoding_BMDPocket4KFilmV4, log_decoding_BMDPocket4KFilmV4)]
  | None => False
  end.
Proof.
  destruct (RGB_COLOURSPACE_BMD_WIDE_GAMUT_V4 D65_standard) as [cs|] eqn:E.
  - apply (blackmagic_cctf_paired D65_standard D65_standard cs).
    apply registry_elem. right. exists cs. split; [reflexivity|]. tauto.
  - vm_compute in E. discriminate E.
Defined.

Lemma registry_of_slots (D65 D65' : xy) :
  registry D65 D65' = omap (fun o => o) (registry_slots D65 D65').*2.
Proof. reflexivity. Qed.

Lemma constructed_name (n : string) (P : primaries) (W : xy) (wn : string)
    (enc dec : cctf) (cs : RGB_Colourspace) :
  constructed n P W wn enc dec cs -> rgb_name cs = n.
Proof. intros (M & Mi & _ & _ & ->). reflexivity. Qed.

Lemma slots_cases {A} (n : string) (x : A) (n0 n1 n2 n3 n4 n5 n6 : string)
    (o0 o1 o2 o3 o4 o5 o6 : option A) :
  (n, Some x) ∈ [(n0, o0); (n1, o1); (n2, o2); (n3, o3); (n4, o4); (n5, o5);
                 (n6, o6)] ->
  (n = n0 /\ o0 = Some x) \/ (n = n1 /\ o1 = Some x) \/
  (n = n2 /\ o2 = Some x) \/ (n = n3 /\ o3 = Some x) \/
  (n = n4 /\ o4 = Some x) \/ (n = n5 /\ o5 = Some x) \/
  (n = n6 /\ o6 = Some x).
Proof.
  rewrite !elem_of_cons, elem_of_nil.
  intros [H|[H|[H|[H|[H|[H|[H|[]]]]]]]]; injection H as -> <-; tauto.
Qed.

(** Each slot holds a colourspace of the slot's name. *)
Lemma registry_slot_name (D65 D65' : xy) (n : string) (r : registered) :
  (n, Some r) ∈ registry_slots D65 D65' -> registered_name r = n.
Proof.
  unfold registry_slots. intros H. apply slots_cases in H.
  destruct H as [[-> H]|[[-> H]|[[-> H]|[[-> H]|[[-> H]|[[-> H]|[-> H]]]]]]];
    apply fmap_Some in H as (cs & H & ->); cbn [registered_name].
  - apply alexa_colourspace_fields in H. apply H.
  - exact (constructed_name _ _ _ _ _ _ _
             (RGB_COLOURSPACE_BMD_FILM_V1_constructed _ H)).
  - exact (constructed_name _ _ _ _ _ _ _
             (RGB_COLOURSPACE_BMD_4K_FILM_V1_constructed _ H)).
  - exact (constructed_name _ _ _ _ _ _ _
             (RGB_COLOURSPACE_BMD_4K_FILM_V3_constructed _ H)).
  - exact (constructed_name _ _ _ _ _ _ _
             (RGB_COLOURSPACE_BMD_46K_FILM_V1_constructed _ _ H)).
  - exact (constructed_name _ _ _ _ _ _ _
             (RGB_COLOURSPACE_BMD_46K_FILM_V3_constructed _ _ H)).
  - exact (constructed_name _ _ _ _ _ _ _
             (RGB_COLOURSPACE_BMD_WIDE_GAMUT_V4_constructed _ _ H)).
Qed.

Lemma registry_slots_NoDup (D65 D65' : xy) :
  NoDup (registry_slots D65 D65').*1.
Proof.
  unfold registry_slots. cbn [fmap list_fmap fst].
  repeat (apply NoDup_cons_2;
          [rewrite ?elem_of_cons, elem_of_nil; intuition discriminate|]).
  apply NoDup_nil_2.
Qed.

(** In a list of named slots with distinct names, searching the filled
    slots for the name of one of them finds that one. *)
Lemma find_by_name {A} (f : A -> string) (slots : list (string * option A))
    (x : A) :
  NoDup slots.*1 ->
  (forall n y, (n, Some y) ∈ slots -> f y = n) ->
  x ∈ omap (fun o => o) slots.*2 ->
  List.find (fun y => String.eqb (f y) (f x)) (omap (fun o => o) slots.*2) = Some x.
Proof.
  induction slots as [|[n o] slots IH]; intros Hnd Hname Hx.
  - apply elem_of_nil in Hx. contradiction.
  - cbn [fmap list_fmap fst snd] in *. apply NoDup_cons in Hnd as [Hn Hnd].
    assert (Hrest : forall y, y ∈ omap (fun o => o) slots.*2 -> f y ∈ slots.*1).
    { intros y Hy. apply list_elem_of_omap in Hy as (o' & Ho' & ->).
      apply list_elem_of_fmap in Ho' as ([n' o''] & Heq & Hin).
      cbn [snd] in Heq. subst o''.
      apply list_elem_of_fmap. exists (n', Some y). split; [|exact Hin].
      cbn [fst]. apply Hname. right. exact Hin. }
    assert (IH' : x ∈ omap (fun o => o) slots.*2 ->
                  List.find (fun y => String.eqb (f y) (f x))
                    (omap (fun o => o) slots.*2) = Some x).
    { apply IH; [exact Hnd|]. intros n' y Hin. apply Hname. right. exact Hin. }
    destruct o as [y|]; cbn [omap list_omap] in *.
    + assert (Hy : f y = n) by (apply Hname; left).
      cbn [List.find]. destruct (String.eqb (f y) (f x)) eqn:E.
      * apply String.eqb_eq in E.
        apply elem_of_cons in Hx as [->|Hx]; [reflexivity|].
        apply Hrest in Hx. rewrite <- E, Hy in Hx. contradiction.
      * apply elem_of_cons in Hx as [->|Hx]; [|exact (IH' Hx)].
        rewrite String.eqb_refl in E. discriminate E.
    + exact (IH' Hx).
Qed.

Lemma registered_found (D65 D65' : xy) (r : registered) :
  r ∈ registry D65 D65' -> get D65 D65' (registered_name r) = Some r.
Proof.
  unfold get. rewrite registry_of_slots.
  apply find_by_name.
  - apply registry_slots_NoDup.
  - intros n y. apply registry_slot_name.
Qed.

(** X11: [get] returns the registered colourspace of the requested name, and
    every registered colourspace is found under its own name: the names
    given in the two files are pairwise distinct. *)
Theorem get_registered (D65 D65' : xy) (n : string) (r : registered) :
  get D65 D65' n = Some r <-> r ∈ registry D65 D65' /\ registered_name r = n.
Proof.
  split.
  - unfold get. intros H. apply find_some in H as [Hin Hn].
    split; [apply list_elem_of_In, Hin | apply String.eqb_eq, Hn].
  - intros [Hr <-]. apply registered_found, Hr.
Qed.

Lemma BMD_White_colourspaces_defined :
  (exists cs, RGB_COLOURSPACE_BMD_FILM_V1 = Some cs) /\
  (exists cs, RGB_COLOURSPACE_BMD_4K_FILM_V1 = Some cs) /\
  (exists cs, RGB_COLOURSPACE_BMD_4K_FILM_V3 = Some cs).
Proof. vm_compute. repeat split; eexists; reflexivity. Qed.

(** X12: four colourspaces do not depend on the illuminant table: ALEXA Wide
    Gamut RGB, whose matrix is written out, and the three Blackmagic
    colourspaces of whitepoint "BMD White".  Their construction succeeds
    and [get] finds them, whatever the table holds. *)
Theorem get_table_independent (D65 D65' : xy) (n : string) :
  n ∈ ["ALEXA Wide Gamut RGB"; "BMD Film V1"; "BMD 4K Film V1"; "BMD 4K Film V3"] ->
  exists r, get D65 D65' n = Some r.
Proof.
  destruct BMD_White_colourspaces_defined as ((c1 & H1) & (c2 & H2) & (c3 & H3)).
  destruct (alexa_colourspace_defined D65) as [c0 H0].
  assert (Hslot : forall m r, (m, Some r) ∈ registry_slots D65 D65' ->
                              get D65 D65' m = Some r).
  { intros m r Hin. rewrite <- (registry_slot_name _ _ _ _ Hin).
    apply registered_found. rewrite registry_of_slots.
    apply list_elem_of_omap. exists (Some r). split; [|reflexivity].
    apply list_elem_of_fmap. exists (m, Some r). split; [reflexivity|exact Hin]. }
  rewrite !elem_of_cons, elem_of_nil.
  intros [->|[->|[->|[->|[]]]]].
  - exists (Alexa c0). apply Hslot. unfold registry_slots. rewrite H0.
    apply list_elem_of_here.
  - exists (Blackmagic c1). apply Hslot. unfold registry_slots. rewrite H1.
    do 1 apply list_elem_of_further. apply list_elem_of_here.
  - exists (Blackmagic c2). apply Hslot. unfold registry_slots. rewrite H2.
    do 2 apply list_elem_of_further. apply list_elem_of_here.
  - exists (Blackmagic c3). apply Hslot. unfold registry_slots. rewrite H3.
    do 3 apply list_elem_of_further. apply list_elem_of_here.
Qed.

Lemma get_table_independent_witness :
  exists r, get (0, 0)%Q (0, 0)%Q "BMD 4K Film V3" = Some r.
Proof.
  apply (get_table_independent (0, 0)%Q (0, 0)%Q "BMD 4K Film V3").
  do 3 apply list_elem_of_further. apply list_elem_of_here.
Defined.

(** ** setup.py: [get_long_description] *)

Lemma for_lines_app (d : list unicode) (l1 l2 : list unicode) :
  for_lines d (l1 ++ l2) = d' ← for_lines d l1; for_lines d' l2.
Proof.
  revert d. induction l1 as [|line l1 IH]; intros d; [reflexivity|].
  cbn [app for_lines]. destruct (loop_body d line) as [d'|e]; [|reflexivity].
  rewrite !bind_Ok_l. apply IH.
Qed.

Lemma getitem_minus_2_Ok {A} (l : list A) :
  (2 <= length l)%nat ->
  exists x, getitem_minus_2 l = Ok x /\ l !! (length l - 2)%nat = Some x.
Proof.
  intros H. unfold getitem_minus_2.
  destruct (Nat.ltb_spec (length l) 2) as [Hlt|_]; [lia|].
  destruct (l !! (length l - 2)%nat) as [x|] eqn:E; [eauto|].
  apply lookup_ge_None in E. lia.
Qed.

Lemma setitem_minus_2_Ok {A} (l : list A) (x : A) :
  (2 <= length l)%nat ->
  setitem_minus_2 l x = Ok (<[(length l - 2)%nat := x]> l).
Proof.
  intros H. unfold setitem_minus_2.
  destruct (Nat.ltb_spec (length l) 2) as [Hlt|_]; [lia | reflexivity].
Qed.

(** A plain line, or any line while fewer than two are kept, is appended. *)
Lemma loop_body_append (d : list unicode) (line : unicode) :
  plain line \/ (length d < 2)%nat -> loop_body d line = Ok (d ++ [line]).
Proof.
  intros H. unfold loop_body.
  destruct H as [->|H]; [reflexivity|].
  destruct (Nat.leb_spec 2 (length d)) as [Hle|_]; [lia|].
  rewrite andb_false_r. reflexivity.
Qed.

(** A marker line met with two lines or more kept is dropped, and the
    line two before it goes through [fix_block]. *)
Lemma loop_body_marker (d : list unicode) (line : unicode) :
  contains code_marker line = true -> (2 <= length d)%nat ->
  exists blockLine,
    d !! (length d - 2)%nat = Some blockLine /\
    loop_body d line = Ok (<[(length d - 2)%nat := fix_block blockLine]> d).
Proof.
  intros Hm Hd. unfold loop_body. rewrite Hm.
  destruct (Nat.leb_spec 2 (length d)) as [_|Hlt]; [|lia]. cbn [andb].
  destruct (getitem_minus_2_Ok d Hd) as (b & -> & Hb).
  exists b. split; [exact Hb|]. rewrite bind_Ok_l. unfold fix_block.
  destruct (search_colon_at_end b && negb (search_two_colons_at_end b)).
  - apply setitem_minus_2_Ok, Hd.
  - rewrite list_insert_id by exact Hb. reflexivity.
Qed.

Lemma loop_body_returns (d : list unicode) (line : unicode) :
  exists d', loop_body d line = Ok d' /\
             (length d <= length d' <= S (length d))%nat /\
             (length d < 2 -> length d' = S (length d))%nat.
Proof.
  destruct (contains code_marker line) eqn:Hm.
  - destruct (Nat.le_gt_cases 2 (length d)) as [Hd|Hd].
    + destruct (loop_body_marker d line Hm Hd) as (b & _ & ->).
      eexists. split; [reflexivity|]. rewrite length_insert. lia.
    + rewrite loop_body_append by (right; lia).
      eexists. split; [reflexivity|]. rewrite length_app. cbn. lia.
  - rewrite loop_body_append by (left; exact Hm).
    eexists. split; [reflexivity|]. rewrite length_app. cbn. lia.
Qed.

Lemma for_lines_returns (d : list unicode) (lines : list unicode) :
  exists d', for_lines d lines = Ok d' /\
             (length d <= length d' <= length d + length lines)%nat /\
             (Nat.min 2 (length d + length lines) <= length d')%nat.
Proof.
  revert d. induction lines as [|line lines IH]; intros d.
  - exists d. split; [reflexivity|]. cbn [length]. lia.
  - destruct (loop_body_returns d line) as (d1 & H1 & Hlen & Hshort).
    destruct (IH d1) as (d' & H' & Hlen' & Hmin).
    exists d'. cbn [for_lines]. rewrite H1, bind_Ok_l.
    split; [exact H'|]. cbn [length]. lia.
Qed.

(** X13: the loop never indexes out of range: [get_long_description] returns
    for every readme, and it returns at most as many lines as it read and
    at least the first two. *)
Theorem get_long_description_returns (readme : list unicode) :
  exists description,
    for_lines [] readme = Ok description /\
    get_long_description readme = Ok (concat description) /\
    (Nat.min 2 (length readme) <= length description <= length readme)%nat.
Proof.
  destruct (for_lines_returns [] readme) as (d & H & Hlen & Hmin).
  exists d. split; [exact H|]. split.
  - unfold get_long_description. rewrite H. reflexivity.
  - cbn [length] in *. lia.
Qed.

Lemma for_lines_plain (d : list unicode) (lines : list unicode) :
  Forall plain lines -> for_lines d lines = Ok (d ++ lines).
Proof.
  intros H. revert d. induction H as [|line lines Hl _ IH]; intros d.
  - rewrite app_nil_r. reflexivity.
  - cbn [for_lines]. rewrite loop_body_append by (left; exact Hl).
    rewrite bind_Ok_l, IH, <- app_assoc. reflexivity.
Qed.

(** X14: a readme without the marker is returned as it is. *)
Theorem get_long_description_plain (readme : list unicode) :
  Forall plain readme -> get_long_description readme = Ok (concat readme).
Proof.
  intros H. unfold get_long_description.
  rewrite (for_lines_plain [] readme H). reflexivity.
Qed.

Lemma get_long_description_plain_witness :
  get_long_description [unicode_of "Colour" ++ [LF]; unicode_of "======" ++ [LF]] =
  Ok (concat [unicode_of "Colour" ++ [LF]; unicode_of "======" ++ [LF]]).
Proof.
  apply get_long_description_plain.
  repeat constructor.
Defined.

(** X15: a marker on the first or the second line is kept: a readme of at
    most two lines is returned as it is, whatever the lines hold. *)
Theorem get_long_description_two_lines (readme : list unicode) :
  (length readme <= 2)%nat -> get_long_description readme = Ok (concat readme).
Proof.
  intros H. unfold get_long_description.
  destruct readme as [|x [|y [|z readme]]]; [reflexivity| | |cbn in H; lia].
  - cbn [for_lines]. rewrite loop_body_append by (right; cbn; lia).
    reflexivity.
  - cbn [for_lines]. rewrite loop_body_append by (right; cbn; lia).
    rewrite bind_Ok_l. rewrite loop_body_append by (right; cbn; lia).
    reflexivity.
Qed.

Lemma get_long_description_two_lines_witness :
  get_long_description [unicode_of ".. code:: python" ++ [LF]] =
  Ok (concat [unicode_of ".. code:: python" ++ [LF]]).
Proof.
  apply get_long_description_two_lines. cbn. lia.
Defined.

Lemma two_colons_cons (c : N) (r : unicode) :
  two_colons (c :: r) =
  N.eqb c COLON && match r with c' :: _ => N.eqb c' COLON | [] => false end.
Proof. destruct r; cbn [two_colons]; [rewrite andb_false_r|]; reflexivity. Qed.

(** Once through [fix_block], a line does not meet its condition again. *)
Lemma fix_block_settled (b : unicode) :
  search_colon_at_end (fix_block b) &&
    negb (search_two_colons_at_end (fix_block b)) = false.
Proof.
  unfold fix_block.
  destruct (search_colon_at_end b && negb (search_two_colons_at_end b)) eqn:G;
    [|exact G].
  apply andb_true_iff in G as [G1 G2]. apply negb_true_iff in G2.
  unfold search_colon_at_end in G1. unfold search_two_colons_at_end in G2.
  unfold rsplit1. change (unicode_of "::") with [COLON; COLON].
  destruct (rev b) as [|c r]; [discriminate G1|].
  apply orb_false_iff in G2 as [G2 G3]. rewrite two_colons_cons in G2.
  cbn [break_at]. destruct (N.eqb_spec c COLON) as [->|Hc].
  - cbn [andb orb] in *. cbn [join rev app].
    unfold search_colon_at_end, search_two_colons_at_end.
    rewrite rev_app_distr, rev_involutive. cbn [rev app].
    rewrite two_colons_cons. cbn. reflexivity.
  - cbn [orb andb] in G1.
    apply andb_true_iff in G1 as [Hlf G1]. apply N.eqb_eq in Hlf. subst c.
    destruct r as [|c' r]; [discriminate G1|].
    apply N.eqb_eq in G1. subst c'.
    cbn [break_at]. rewrite N.eqb_refl. cbn [join rev app].
    unfold search_colon_at_end, search_two_colons_at_end.
    rewrite rev_app_distr, rev_involutive. cbn [rev app].
    cbn. reflexivity.
Qed.

Lemma fix_block_idempotent (b : unicode) : fix_block (fix_block b) = fix_block b.
Proof.
  unfold fix_block at 1. rewrite fix_block_settled. reflexivity.
Qed.

Lemma fix_block_colon_newline_rev (q : unicode) :
  match q with c :: _ => N.eqb c COLON | [] => false end = false ->
  fix_block (rev q ++ [COLON; LF]) = rev q ++ [COLON; COLON; LF].
Proof.
  intros Hq.
  unfold fix_block, search_colon_at_end, search_two_colons_at_end, rsplit1.
  change (unicode_of "::") with [COLON; COLON].
  rewrite rev_app_distr, rev_involutive.
  destruct q as [|c r]; cbn in *; [reflexivity|].
  rewrite Hq. cbn. reflexivity.
Qed.

(** A line ["p:\n"] where [p] does not end with a colon becomes
    ["p::\n"]. *)
Lemma fix_block_colon_newline (p : unicode) :
  endswith_colon p = false ->
  fix_block (p ++ [COLON; LF]) = p ++ [COLON; COLON; LF].
Proof.
  unfold endswith_colon. intros Hp.
  rewrite <- (rev_involutive p). apply fix_block_colon_newline_rev, Hp.
Qed.

(** X16: the reStructuredText idiom the function rewrites: after plain lines,
    a line ["p:"] (newline included, [p] not ending with a colon), one
    more line, then a marker line.  The marker line is dropped and the
    colon doubled; the plain lines after it are kept. *)
Theorem get_long_description_code_block
    (before : list unicode) (p x marker_line : unicode) (after : list unicode) :
  Forall plain before -> plain (p ++ [COLON; LF]) -> plain x ->
  endswith_colon p = false ->
  contains code_marker marker_line = true ->
  Forall plain after ->
  get_long_description
    (before ++ [p ++ [COLON; LF]; x; marker_line] ++ after) =
  Ok (concat before ++ p ++ [COLON; COLON; LF] ++ x ++ concat after).
Proof.
  intros Hbefore Hb Hx Hp Hm Hafter. unfold get_long_description.
  change ([p ++ [COLON; LF]; x; marker_line] ++ after)
    with ([p ++ [COLON; LF]; x] ++ marker_line :: after).
  rewrite app_assoc, for_lines_app.
  rewrite for_lines_plain
    by (apply Forall_app; split; [exact Hbefore | repeat constructor; assumption]).
  rewrite bind_Ok_l. cbn [app for_lines].
  match goal with |- context [loop_body ?l _] => set (d := l) end.
  assert (Hlen : length d = S (S (length before)))
    by (unfold d; rewrite length_app; cbn [length]; lia).
  destruct (loop_body_marker d marker_line Hm) as (b & Hb' & ->); [lia|].
  assert (b = p ++ [COLON; LF]) as ->.
  { rewrite Hlen in Hb'. unfold d in Hb'.
    rewrite lookup_app_r in Hb' by lia.
    replace (S (S (length before)) - 2 - length before)%nat with 0%nat in Hb' by lia.
    cbn in Hb'. congruence. }
  rewrite bind_Ok_l, for_lines_plain, bind_Ok_l by exact Hafter.
  f_equal. rewrite Hlen. unfold d.
  rewrite insert_app_r_alt by lia.
  replace (S (S (length before)) - 2 - length before)%nat with 0%nat by lia.
  cbn [insert list_insert]. rewrite fix_block_colon_newline by exact Hp.
  rewrite !concat_app. cbn [concat]. rewrite app_nil_r, <- !app_assoc.
  reflexivity.
Qed.

Lemma get_long_description_code_block_witness :
  get_long_description
    ([unicode_of "Usage" ++ [LF]] ++
     [unicode_of "Run" ++ [COLON; LF]; [LF];
      unicode_of ".. code:: python" ++ [LF]] ++
     [[LF]; unicode_of "    import colour" ++ [LF]]) =
  Ok (concat [unicode_of "Usage" ++ [LF]] ++ unicode_of "Run" ++
      [COLON; COLON; LF] ++ [LF] ++
      concat [[LF]; unicode_of "    import colour" ++ [LF]]).
Proof.
  apply get_long_description_code_block.
  - repeat constructor.
  - reflexivity.
  - reflexivity.
  - reflexivity.
  - reflexivity.
  - repeat constructor.
Defined.

(** X17: a marker line that follows a marker line changes nothing: the colon
    two lines above is doubled once, not twice. *)
Theorem get_long_description_repeated_marker
    (before : list unicode) (marker_line marker_line' : unicode)
    (after : list unicode) :
  (2 <= length before)%nat ->
  contains code_marker marker_line = true ->
  contains code_marker marker_line' = true ->
  get_long_description (before ++ marker_line :: marker_line' :: after) =
  get_long_description (before ++ marker_line :: after).
Proof.
  intros Hlen Hm Hm'. unfold get_long_description.
  rewrite !for_lines_app.
  destruct (for_lines_returns [] before) as (d & -> & _ & Hd).
  rewrite !bind_Ok_l. cbn [for_lines].
  cbn [length] in Hd. rewrite Nat.min_l in Hd by lia.
  destruct (loop_body_marker d marker_line Hm Hd) as (b & Hb & ->).
  rewrite !bind_Ok_l.
  set (d1 := <[(length d - 2)%nat := fix_block b]> d).
  assert (Hd1 : (2 <= length d1)%nat) by (unfold d1; rewrite length_insert; lia).
  destruct (loop_body_marker d1 marker_line' Hm' Hd1) as (b' & Hb' & ->).
  rewrite bind_Ok_l.
  assert (b' = fix_block b) as ->.
  { unfold d1 in Hb'. rewrite length_insert in Hb'.
    rewrite list_lookup_insert_eq in Hb' by lia. congruence. }
  rewrite fix_block_idempotent. rewrite list_insert_id; [reflexivity|].
  unfold d1. rewrite length_insert. apply list_lookup_insert_eq. lia.
Qed.

Lemma get_long_description_repeated_marker_witness :
  get_long_description
    ([unicode_of "Run" ++ [COLON; LF]; [LF]] ++
     (unicode_of ".. code:: python" ++ [LF]) ::
     (unicode_of ".. code:: python" ++ [LF]) :: [[LF]]) =
  get_long_description
    ([unicode_of "Run" ++ [COLON; LF]; [LF]] ++
     (unicode_of ".. code:: python" ++ [LF]) :: [[LF]]).
Proof.
  apply get_long_description_repeated_marker.
  - cbn. lia.
  - reflexivity.
  - reflexivity.
Defined.

(** ** The black and clipping level table *)

(** X18: [ALEXA_LOG_C_CURVE_BCL_DATA] has both firmware keys, and it covers
    the conversion table: every exposure index the transfer functions
    accept has, under either firmware, a black level and a clipping level
    with [0 < black < clipping <= 1]. *)
Theorem BCL_covers_conversion_data (firmware method : string) (EI : Z)
    (t : coefficients) (firmware' : string) :
  lookup_coefficients firmware method EI = Ok t ->
  firmware' ∈ ["SUP 2.x"; "SUP 3.x"] ->
  exists bcl, BCL firmware' EI = Some bcl /\ levels_ordered bcl = true.
Proof.
  intros H Hfw.
  assert (Hk : (firmware, method, EI) ∈ supported_configurations)
    by (apply lookup_supported; eauto).
  assert (Hall :
    forallb (fun k => forallb (fun fw =>
               match BCL fw k.2 with
               | Some bcl => levels_ordered bcl
               | None => false
               end) ["SUP 2.x"; "SUP 3.x"]) supported_configurations = true)
    by (vm_compute; reflexivity).
  apply (forallb_elem_of _ _ _ Hall) in Hk.
  apply (forallb_elem_of _ _ _ Hk) in Hfw. cbn [snd] in Hfw.
  destruct (BCL firmware' EI) as [bcl|]; [eauto | discriminate Hfw].
Qed.

Lemma BCL_covers_conversion_data_witness :
  exists bcl, BCL "SUP 2.x" 800 = Some bcl /\ levels_ordered bcl = true.
Proof.
  apply (BCL_covers_conversion_data "SUP 3.x" "Linear Scene Exposure Factor" 800
           (0.000000, 5.061087, 0.089004, 0.247189, 0.391007, 4.950469,
            0.131313, 0.131313)%Q "SUP 2.x").
  - vm_compute. reflexivity.
  - apply list_elem_of_here.
Defined.
